(** * passport-envato: the Envato OAuth 2.0 strategy

    A shallow embedding of [lib/passport-envato/strategy.js]: the
    [Strategy] constructor and [Strategy.prototype.userProfile].

    The JavaScript objects the program writes (the caller's [options], its
    [customHeaders], the strategy instance, each [profile]) live in a store
    indexed by allocation order, so that aliasing and freshness can be
    stated.  Data built by the host and only read by the program (parsed
    JSON, error objects) is carried by content.  The asynchronous calls are
    modelled by an event loop: a pending queue of closures, one per
    outstanding [_oauth2.get], and a log of what the program did to the
    outside world.

    What the program calls but does not define is taken as follows.
    [JSON.parse] and the constructor of the generic [OAuth2Strategy] are
    parameters.  [_oauth2.get] issues the request and returns; its callback
    runs later, once, with the transport's reply.  The completion callback
    [done] records its arguments and returns normally.

    That last assumption matters where the program calls [done] inside a
    [try] block.  The three callbacks are therefore given a second time with
    the host's [done] left open ([on_account_with], [on_username_with],
    [on_email_with]); what depends on how [done] behaves is stated and
    proved about those. *)

From stdpp Require Import gmap strings list.
From Stdlib Require Import Decimal Ascii.

Set Warnings "-register-all".

(** ** Values *)

(** What [JSON.parse] can return.  A number is kept as its decimal literal;
    the rounding to a double is not modelled and nothing below reads it. *)
Inductive json : Type :=
  | JNull
  | JBool (b : bool)
  | JNum (d : Decimal.decimal)
  | JStr (s : string)
  | JArr (items : list json)
  | JObj (members : gmap string json).

Inductive error_name : Type :=
  | SyntaxError
  | TypeError
  | InternalOAuthError.

Abbreviation loc := nat.

(** A JavaScript value: [undefined], JSON-shaped data, a reference to a
    mutable object of the store (functions of the host included, which the
    program only passes around), or an error object with its [name],
    [message] and, for [InternalOAuthError], the wrapped [oauthError]. *)
Inductive value : Type :=
  | VUndefined
  | VData (j : json)
  | VRef (l : loc)
  | VError (name : error_name) (message : string) (oauthError : value).

Abbreviation VNull := (VData JNull).
Abbreviation VStr s := (VData (JStr s)).

Abbreviation object := (gmap string value).

(** ** The event loop state *)

(** The three anonymous callbacks of [userProfile], each with the variables
    it captures. *)
Inductive closure : Type :=
  | OnAccount (_this accessToken done : value)
  | OnUsername (_this accessToken done profile : value)
  | OnEmail (done profile : value).

(** What the program does to its environment. *)
Inductive event : Type :=
  | Get (client url accessToken : value)
  | Done (done err profile : value)
  | Uncaught (e : value).

Record state : Type := State {
  heap : list object;
  pending : list closure;
  log : list event
}.

(** What the transport hands to a callback: [function (err, body, res)];
    [res] is never read. *)
Record reply : Type := Reply {
  err : value;
  body : string
}.

(** ** Computations: state and exceptions *)

Definition M (A : Type) : Type := state -> (value + A) * state.

#[global] Instance M_ret : MRet M := fun A a s => (inr a, s).

#[global] Instance M_bind : MBind M := fun A B f m s =>
  match m s with
  | (inl e, s') => (inl e, s')
  | (inr a, s') => f a s'
  end.

Definition throw {A : Type} (e : value) : M A := fun s => (inl e, s).

Definition try_catch {A : Type} (block : M A) (handler : value -> M A) : M A :=
  fun s =>
    match block s with
    | (inl e, s') => handler e s'
    | (inr a, s') => (inr a, s')
    end.

(** ** Language primitives *)

Fixpoint uint_is_zero (u : Decimal.uint) : bool :=
  match u with
  | Decimal.Nil => true
  | Decimal.D0 u' => uint_is_zero u'
  | _ => false
  end.

Definition int_is_zero (i : Decimal.signed_int) : bool :=
  match i with
  | Decimal.Pos u | Decimal.Neg u => uint_is_zero u
  end.

Definition decimal_is_zero (d : Decimal.decimal) : bool :=
  match d with
  | Decimal.Decimal i f | Decimal.DecimalExp i f _ =>
      int_is_zero i && uint_is_zero f
  end.

(** [ToBoolean]. *)
Definition truthy (v : value) : bool :=
  match v with
  | VUndefined => false
  | VData JNull => false
  | VData (JBool b) => b
  | VData (JNum d) => negb (decimal_is_zero d)
  | VData (JStr s) => match s with EmptyString => false | String _ _ => true end
  | VData (JArr _) | VData (JObj _) => true
  | VRef _ => true
  | VError _ _ _ => true
  end.

Definition error_name_string (n : error_name) : string :=
  match n with
  | SyntaxError => "SyntaxError"
  | TypeError => "TypeError"
  | InternalOAuthError => "InternalOAuthError"
  end.

Definition type_error (message : string) : value :=
  VError TypeError message VUndefined.

(** A property of JSON data other than [null]. *)
Definition member (j : json) (k : string) : value :=
  match j with
  | JObj m => match m !! k with Some x => VData x | None => VUndefined end
  | _ => VUndefined
  end.

(** A property of the store object at [l]. *)
Definition field (h : list object) (l : loc) (k : string) : value :=
  match h !! l with
  | Some o => default VUndefined (o !! k)
  | None => VUndefined
  end.

Definition nullish (v : value) : bool :=
  match v with
  | VUndefined | VData JNull => true
  | _ => false
  end.

(** What [v.k] reads when [v] is neither [undefined] nor [null]: a missing
    property reads as [undefined].  Only own data properties are modelled:
    the inherited members of strings, arrays and [Object.prototype] have
    names the program never reads. *)
Definition read (h : list object) (v : value) (k : string) : value :=
  match v with
  | VUndefined => VUndefined
  | VData j => member j k
  | VRef l => field h l k
  | VError n msg cause =>
      if String.eqb k "name" then VStr (error_name_string n)
      else if String.eqb k "message" then VStr msg
      else if String.eqb k "oauthError" then cause
      else VUndefined
  end.

(** What [v.k = x] does to the store when [v] is neither [undefined] nor
    [null], in sloppy mode (the file has no strict-mode directive): a write
    to a primitive is dropped.  The objects the program writes are store
    objects; data carried by content is never written, and a write to it is
    not modelled. *)
Definition write (h : list object) (v : value) (k : string) (x : value)
  : list object :=
  match v with
  | VRef l => alter (fun o : object => <[k := x]> o) l h
  | _ => h
  end.

(** [v.k] and [v[k]]: through [undefined] or [null] it throws a
    [TypeError]. *)
Definition get_prop (v : value) (k : string) : M value := fun s =>
  if nullish v then
    (inl (type_error ("Cannot read property '" +:+ k +:+ "'")), s)
  else (inr (read (heap s) v k), s).

(** [v.k = x]. *)
Definition set_prop (v : value) (k : string) (x : value) : M unit := fun s =>
  if nullish v then
    (inl (type_error ("Cannot set property '" +:+ k +:+ "'")), s)
  else (inr tt, State (write (heap s) v k x) (pending s) (log s)).

(** An object literal allocates a new object. *)
Definition new_object (o : object) : M value := fun s =>
  (inr (VRef (length (heap s))), State (heap s ++ [o]) (pending s) (log s)).

(** [a || b], with [b] evaluated only when [a] is falsy. *)
Definition or_else (a : value) (b : M value) : M value :=
  if truthy a then mret a else b.

(** [x || d] for a default [d] that is a constant. *)
Definition resolve (x d : value) : value := if truthy x then x else d.

Definition emit (e : event) : M unit := fun s =>
  (inr tt, State (heap s) (pending s) (log s ++ [e])).

(** ** The host *)

(** [client.get(url, accessToken, callback)] of node-oauth: the request is
    issued and the callback is queued; it runs later, with the reply, on
    its own stack.  A missing client makes the method call itself throw. *)
Definition oauth2_get (client url accessToken : value) (callback : closure)
  : M unit := fun s =>
  if nullish client then (inl (type_error "Cannot read property 'get'"), s)
  else
    (inr tt, State (heap s) (pending s ++ [callback])
                   (log s ++ [Get client url accessToken])).

(** [done(err, profile)]: the host's completion callback records its
    arguments and returns. *)
Definition call_done (done err profile : value) : M unit :=
  emit (Done done err profile).

(** [new InternalOAuthError(message, err)] of passport-oauth. *)
Definition new_InternalOAuthError (message : string) (e : value) : value :=
  VError InternalOAuthError message e.

(** ** The program *)

Section Strategy.

(** [JSON.parse]: the parsed data, or the message of the [SyntaxError]
    it throws. *)
Variable JSON_parse : string -> string + json.

(** [OAuth2Strategy.call(this, options, verify)], the constructor of the
    generic OAuth 2.0 strategy of passport-oauth. *)
Variable OAuth2Strategy_call : value -> value -> value -> M unit.

Definition parse (text : string) : M value :=
  match JSON_parse text with
  | inl message => throw (VError SyntaxError message VUndefined)
  | inr j => mret (VData j)
  end.

(** *** [function Strategy(options, verify)] *)

Definition Strategy (this options verify : value) : M unit :=
  options ← or_else options (new_object ∅);
  x ← get_prop options "authorizationURL";
  x ← or_else x (mret (VStr "https://api.envato.com/authorization"));
  set_prop options "authorizationURL" x;;
  x ← get_prop options "tokenURL";
  x ← or_else x (mret (VStr "https://api.envato.com/token"));
  set_prop options "tokenURL" x;;
  x ← get_prop options "customHeaders";
  x ← or_else x (new_object ∅);
  set_prop options "customHeaders" x;;
  headers ← get_prop options "customHeaders";
  ua ← get_prop headers "User-Agent";
  (if negb (truthy ua) then
     headers ← get_prop options "customHeaders";
     x ← get_prop options "userAgent";
     x ← or_else x (mret (VStr "passport-envato"));
     set_prop headers "User-Agent" x
   else mret tt);;
  OAuth2Strategy_call this options verify;;
  set_prop this "name" (VStr "envato");;
  x ← get_prop options "userProfileURL";
  x ← or_else x
        (mret (VStr "https://api.envato.com/v1/market/private/user/account.json"));
  set_prop this "_userProfileURL" x;;
  x ← get_prop options "userProfileUsername";
  x ← or_else x
        (mret (VStr "https://api.envato.com/v1/market/private/user/username.json"));
  set_prop this "_userProfileUsername" x;;
  x ← get_prop options "userProfileEmail";
  x ← or_else x
        (mret (VStr "https://api.envato.com/v1/market/private/user/email.json"));
  set_prop this "_userProfileEmail" x.

(** [new Strategy(options, verify)]. *)
Definition new_Strategy (options verify : value) : M value :=
  this ← new_object ∅;
  Strategy this options verify;;
  mret this.

(** *** [Strategy.prototype.userProfile] *)

(** The callback of the third request. *)
Definition on_email (done profile : value) (r : reply) : M unit :=
  if truthy (err r) then
    call_done done (new_InternalOAuthError "failed to fetch email" (err r))
              VUndefined
  else
    try_catch
      (json ← parse (body r);
       x ← get_prop json "email";
       set_prop profile "email" x;;
       call_done done VNull profile)
      (fun e => call_done done e VUndefined).

(** The callback of the second request. *)
Definition on_username (_this accessToken done profile : value) (r : reply)
  : M unit :=
  if truthy (err r) then
    call_done done (new_InternalOAuthError "failed to fetch username" (err r))
              VUndefined
  else
    try_catch
      (json ← parse (body r);
       x ← get_prop json "username";
       set_prop profile "username" x;;
       client ← get_prop _this "_oauth2";
       url ← get_prop _this "_userProfileEmail";
       oauth2_get client url accessToken (OnEmail done profile))
      (fun e => call_done done e VUndefined).

(** The callback of the first request. *)
Definition on_account (_this accessToken done : value) (r : reply) : M unit :=
  if truthy (err r) then
    call_done done
              (new_InternalOAuthError "failed to fetch user profile" (err r))
              VUndefined
  else
    try_catch
      (json ← parse (body r);
       profile ← new_object {[ "provider" := VStr "envato" ]};
       a ← get_prop json "account"; x ← get_prop a "image";
       set_prop profile "image" x;;
       a ← get_prop json "account"; x ← get_prop a "firstname";
       set_prop profile "firstname" x;;
       a ← get_prop json "account"; x ← get_prop a "surname";
       set_prop profile "surname" x;;
       a ← get_prop json "account"; x ← get_prop a "available_earnings";
       set_prop profile "available_earnings" x;;
       a ← get_prop json "account"; x ← get_prop a "total_deposits";
       set_prop profile "total_deposits" x;;
       a ← get_prop json "account"; x ← get_prop a "balance";
       set_prop profile "balance" x;;
       a ← get_prop json "account"; x ← get_prop a "country";
       set_prop profile "country" x;;
       set_prop profile "_raw" (VStr (body r));;
       set_prop profile "_json" json;;
       client ← get_prop _this "_oauth2";
       url ← get_prop _this "_userProfileUsername";
       oauth2_get client url accessToken
                  (OnUsername _this accessToken done profile))
      (fun e => call_done done e VUndefined).

Definition userProfile (this accessToken done : value) : M unit :=
  let _this := this in
  client ← get_prop _this "_oauth2";
  url ← get_prop this "_userProfileURL";
  oauth2_get client url accessToken (OnAccount _this accessToken done).

(** *** Running the program *)

Definition apply_closure (c : closure) (r : reply) : M unit :=
  match c with
  | OnAccount _this accessToken done => on_account _this accessToken done r
  | OnUsername _this accessToken done profile =>
      on_username _this accessToken done profile r
  | OnEmail done profile => on_email done profile r
  end.

(** A call from the host on an empty stack: an exception nobody catches
    is reported to the event loop. *)
Definition call (m : M unit) (s : state) : state :=
  match m s with
  | (inl e, s') => State (heap s') (pending s') (log s' ++ [Uncaught e])
  | (inr _, s') => s'
  end.

(** The transport answers the oldest outstanding request. *)
Definition deliver (s : state) (r : reply) : state :=
  match pending s with
  | [] => s
  | c :: rest => call (apply_closure c r) (State (heap s) rest (log s))
  end.

Definition deliver_all (rs : list reply) (s : state) : state :=
  foldl deliver s rs.

(** One invocation of [userProfile] followed by the transport's replies,
    in order. *)
Definition fetchProfile (this accessToken done : value) (rs : list reply)
  (s : state) : state :=
  deliver_all rs (call (userProfile this accessToken done) s).

End Strategy.

(** ** A JSON reader

    An executable stand-in for [JSON.parse], used to run the program on
    concrete response bodies.  It follows the JSON grammar (RFC 8259) on
    byte strings; an escape [\uXXXX] is stored as the UTF-8 bytes of that
    code unit, and a repeated key keeps its last value, as in JavaScript. *)

Module Reader.

Definition quote : Ascii.ascii := "034"%char.
Definition backslash : Ascii.ascii := "092"%char.

Definition is_ws (c : Ascii.ascii) : bool :=
  Ascii.eqb c " "%char || Ascii.eqb c "009"%char
  || Ascii.eqb c "010"%char || Ascii.eqb c "013"%char.

Fixpoint skip_ws (s : string) : string :=
  match s with
  | String c r => if is_ws c then skip_ws r else s
  | EmptyString => s
  end.

Definition digit (c : Ascii.ascii) : option (Decimal.uint -> Decimal.uint) :=
  if Ascii.eqb c "0"%char then Some Decimal.D0
  else if Ascii.eqb c "1"%char then Some Decimal.D1
  else if Ascii.eqb c "2"%char then Some Decimal.D2
  else if Ascii.eqb c "3"%char then Some Decimal.D3
  else if Ascii.eqb c "4"%char then Some Decimal.D4
  else if Ascii.eqb c "5"%char then Some Decimal.D5
  else if Ascii.eqb c "6"%char then Some Decimal.D6
  else if Ascii.eqb c "7"%char then Some Decimal.D7
  else if Ascii.eqb c "8"%char then Some Decimal.D8
  else if Ascii.eqb c "9"%char then Some Decimal.D9
  else None.

(** The longest prefix of digits, most significant first. *)
Fixpoint read_digits (s : string) : Decimal.uint * string :=
  match s with
  | String c r =>
      match digit c with
      | Some d => let '(u, r') := read_digits r in (d u, r')
      | None => (Decimal.Nil, s)
      end
  | EmptyString => (Decimal.Nil, s)
  end.

Definition read_digits1 (s : string) : option (Decimal.uint * string) :=
  match read_digits s with
  | (Decimal.Nil, _) => None
  | r => Some r
  end.

(** [int]: a single [0], or digits that do not start with [0]. *)
Definition read_int (s : string) : option (Decimal.uint * string) :=
  match s with
  | String c r =>
      if Ascii.eqb c "0"%char then Some (Decimal.D0 Decimal.Nil, r)
      else read_digits1 s
  | EmptyString => None
  end.

Definition read_frac (s : string) : option (Decimal.uint * string) :=
  match s with
  | String c r =>
      if Ascii.eqb c "."%char then read_digits1 r else Some (Decimal.Nil, s)
  | EmptyString => Some (Decimal.Nil, s)
  end.

Definition read_exp (s : string) : option (option Decimal.signed_int * string) :=
  match s with
  | String c r =>
      if Ascii.eqb c "e"%char || Ascii.eqb c "E"%char then
        match r with
        | String sg r' =>
            if Ascii.eqb sg "-"%char then
              '(u, r'') ← read_digits1 r'; Some (Some (Decimal.Neg u), r'')
            else if Ascii.eqb sg "+"%char then
              '(u, r'') ← read_digits1 r'; Some (Some (Decimal.Pos u), r'')
            else
              '(u, r'') ← read_digits1 r; Some (Some (Decimal.Pos u), r'')
        | EmptyString => None
        end
      else Some (None, s)
  | EmptyString => Some (None, s)
  end.

Definition read_number (s : string) : option (json * string) :=
  let '(neg, s1) :=
    match s with
    | String c r => if Ascii.eqb c "-"%char then (true, r) else (false, s)
    | EmptyString => (false, s)
    end in
  '(i, s2) ← read_int s1;
  '(f, s3) ← read_frac s2;
  '(e, s4) ← read_exp s3;
  let m := if neg then Decimal.Neg i else Decimal.Pos i in
  Some (JNum (match e with
              | Some e' => Decimal.DecimalExp m f e'
              | None => Decimal.Decimal m f
              end), s4).

Definition hex (c : Ascii.ascii) : option N :=
  let n := Ascii.N_of_ascii c in
  if (48 <=? n)%N && (n <=? 57)%N then Some (n - 48)%N
  else if (65 <=? n)%N && (n <=? 70)%N then Some (n - 55)%N
  else if (97 <=? n)%N && (n <=? 102)%N then Some (n - 87)%N
  else None.

Definition utf8 (n : N) : string :=
  let b (x : N) := Ascii.ascii_of_N x in
  if (n <? 128)%N then String (b n) EmptyString
  else if (n <? 2048)%N then
    String (b (192 + n / 64)%N) (String (b (128 + n mod 64)%N) EmptyString)
  else
    String (b (224 + n / 4096)%N)
      (String (b (128 + (n / 64) mod 64)%N)
         (String (b (128 + n mod 64)%N) EmptyString)).

Definition escape (c : Ascii.ascii) : option Ascii.ascii :=
  if Ascii.eqb c quote then Some quote
  else if Ascii.eqb c backslash then Some backslash
  else if Ascii.eqb c "/"%char then Some "/"%char
  else if Ascii.eqb c "b"%char then Some "008"%char
  else if Ascii.eqb c "f"%char then Some "012"%char
  else if Ascii.eqb c "n"%char then Some "010"%char
  else if Ascii.eqb c "r"%char then Some "013"%char
  else if Ascii.eqb c "t"%char then Some "009"%char
  else None.

(** The characters of a string literal, after its opening quote. *)
Fixpoint read_string (s : string) : option (string * string) :=
  match s with
  | EmptyString => None
  | String c r =>
      if Ascii.eqb c quote then Some (EmptyString, r)
      else if Ascii.eqb c backslash then
        match r with
        | String e r' =>
            if Ascii.eqb e "u"%char then
              match r' with
              | String h1 (String h2 (String h3 (String h4 r''))) =>
                  a ← hex h1; b ← hex h2; c' ← hex h3; d ← hex h4;
                  '(t, rest) ← read_string r'';
                  Some (utf8 (((a * 16 + b) * 16 + c') * 16 + d)%N +:+ t, rest)
              | _ => None
              end
            else
              x ← escape e;
              '(t, rest) ← read_string r';
              Some (String x t, rest)
        | EmptyString => None
        end
      else if (Ascii.N_of_ascii c <? 32)%N then None
      else '(t, rest) ← read_string r; Some (String c t, rest)
  end.

Fixpoint expect (word s : string) : option string :=
  match word, s with
  | EmptyString, _ => Some s
  | String a w, String c r => if Ascii.eqb a c then expect w r else None
  | String _ _, EmptyString => None
  end.

(** The elements of an array after its first, up to the closing bracket. *)
Fixpoint read_elements (read : string -> option (json * string)) (n : nat)
  (s : string) (acc : list json) : option (json * string) :=
  match n with
  | O => None
  | S n' =>
      match skip_ws s with
      | String c r =>
          if Ascii.eqb c "]"%char then Some (JArr (reverse acc), r)
          else if Ascii.eqb c ","%char then
            '(v, r') ← read r; read_elements read n' r' (v :: acc)
          else None
      | EmptyString => None
      end
  end.

(** The members of an object, from a key on, up to the closing brace. *)
Fixpoint read_members (read : string -> option (json * string)) (n : nat)
  (s : string) (acc : gmap string json) : option (json * string) :=
  match n with
  | O => None
  | S n' =>
      match skip_ws s with
      | String c r =>
          if Ascii.eqb c quote then
            '(k, r1) ← read_string r;
            r2 ← expect ":" (skip_ws r1);
            '(v, r3) ← read r2;
            match skip_ws r3 with
            | String c' r4 =>
                if Ascii.eqb c' "}"%char then Some (JObj (<[k := v]> acc), r4)
                else if Ascii.eqb c' ","%char then
                  read_members read n' r4 (<[k := v]> acc)
                else None
            | EmptyString => None
            end
          else None
      | EmptyString => None
      end
  end.

Fixpoint read_value (fuel : nat) (s : string) : option (json * string) :=
  match fuel with
  | O => None
  | S fuel' =>
      match skip_ws s with
      | String c r =>
          if Ascii.eqb c "{"%char then
            match skip_ws r with
            | String c' r' =>
                if Ascii.eqb c' "}"%char then Some (JObj ∅, r')
                else read_members (read_value fuel') (String.length r) r ∅
            | EmptyString => None
            end
          else if Ascii.eqb c "["%char then
            match skip_ws r with
            | String c' r' =>
                if Ascii.eqb c' "]"%char then Some (JArr [], r')
                else
                  '(v, r1) ← read_value fuel' r;
                  read_elements (read_value fuel') (String.length r) r1 [v]
            | EmptyString => None
            end
          else if Ascii.eqb c quote then
            '(t, r') ← read_string r; Some (JStr t, r')
          else if Ascii.eqb c "t"%char then
            r' ← expect "rue" r; Some (JBool true, r')
          else if Ascii.eqb c "f"%char then
            r' ← expect "alse" r; Some (JBool false, r')
          else if Ascii.eqb c "n"%char then
            r' ← expect "ull" r; Some (JNull, r')
          else read_number (String c r)
      | EmptyString => None
      end
  end.

Definition JSON_parse (text : string) : string + json :=
  match read_value (S (String.length text)) text with
  | Some (j, rest) =>
      match skip_ws rest with
      | EmptyString => inr j
      | String _ _ => inl "Unexpected token in JSON"
      end
  | None => inl "Unexpected token in JSON"
  end.

(** Response bodies are written with apostrophes for the double quotes. *)
Fixpoint dq (s : string) : string :=
  match s with
  | EmptyString => EmptyString
  | String c r => String (if Ascii.eqb c "'"%char then quote else c) (dq r)
  end.

End Reader.

(** ** A stand-in for the generic strategy

    The constructor of passport-oauth's [OAuth2Strategy] is not part of
    this package.  The theorems below hold for every constructor that
    writes only to the instance it builds and to objects it allocates;
    this one, which refuses a configuration without client identifier and
    otherwise attaches a client to the instance, is used to run them. *)

Module Host.

Definition OAuth2Strategy_call (this options verify : value) : M unit :=
  id ← get_prop options "clientID";
  (if truthy id then mret tt
   else throw (type_error "OAuth2Strategy requires a clientID option"));;
  secret ← get_prop options "clientSecret";
  authorize ← get_prop options "authorizationURL";
  token ← get_prop options "tokenURL";
  headers ← get_prop options "customHeaders";
  client ← new_object (list_to_map
    [("_clientId", id); ("_clientSecret", secret);
     ("_authorizeUrl", authorize); ("_accessTokenUrl", token);
     ("_customHeaders", headers)]);
  set_prop this "_verify" verify;;
  set_prop this "_oauth2" client;;
  callback ← get_prop options "callbackURL";
  set_prop this "_callbackURL" callback.

End Host.

(** ** Predicates used in the statements *)

(** Between [s] and [s'] the store has grown, and reading an object of [s]
    gives the same value in [s'], except at the places [W]. *)
Definition changes_only (W : loc -> string -> Prop) (s s' : state) : Prop :=
  length (heap s) ≤ length (heap s') ∧
  ∀ l k, l < length (heap s) -> ¬ W l k ->
         field (heap s') l k = field (heap s) l k.

(** The strategy instance at [l] holds its client and its three URLs. *)
Definition strategy_at (h : list object) (l : loc)
  (client url username_url email_url : value) : Prop :=
  l < length h ∧ nullish client = false ∧
  field h l "_oauth2" = client ∧
  field h l "_userProfileURL" = url ∧
  field h l "_userProfileUsername" = username_url ∧
  field h l "_userProfileEmail" = email_url.

(** The profile as the first callback leaves it, from the parsed body [j],
    its member [a = j.account] and the body text. *)
Definition account_profile (j a : json) (text : string) : object :=
  <["_json" := VData j]> (<["_raw" := VStr text]> (
  <["country" := member a "country"]> (
  <["balance" := member a "balance"]> (
  <["total_deposits" := member a "total_deposits"]> (
  <["available_earnings" := member a "available_earnings"]> (
  <["surname" := member a "surname"]> (
  <["firstname" := member a "firstname"]> (
  <["image" := member a "image"]> {[ "provider" := VStr "envato" ]})))))))).

Definition is_done (e : event) : bool :=
  match e with
  | Done _ _ _ => true
  | _ => false
  end.

Definition is_get (e : event) : bool :=
  match e with
  | Get _ _ _ => true
  | _ => false
  end.

(** The calls of the completion callback, and the requests issued. *)
Definition dones (l : list event) : list event := List.filter is_done l.
Definition gets (l : list event) : list event := List.filter is_get l.

(** The property names of a complete profile. *)
Definition profile_fields : list string :=
  ["provider"; "image"; "firstname"; "surname"; "available_earnings";
   "total_deposits"; "balance"; "country"; "_raw"; "_json"; "username";
   "email"].

Definition complete (o : object) : Prop :=
  Forall (fun k => is_Some (o !! k)) profile_fields.

(** The strategy is constructed and no request is outstanding. *)
Definition ready (s : state) (l : loc)
  (client url username_url email_url : value) : Prop :=
  pending s = [] ∧ strategy_at (heap s) l client url username_url email_url.

(** The account request succeeded: no transport error, a body that parses
    to [j], and [j.account] is [a], which is not [null]. *)
Definition account_ok (JSON_parse : string -> string + json) (r : reply)
  (j a : json) : Prop :=
  truthy (err r) = false ∧ JSON_parse (body r) = inr j ∧
  member j "account" = VData a ∧ a ≠ JNull.

(** A username or email request succeeded: no transport error and a body
    that parses to [j], which is not [null]. *)
Definition answer_ok (JSON_parse : string -> string + json) (r : reply)
  (j : json) : Prop :=
  truthy (err r) = false ∧ JSON_parse (body r) = inr j ∧ j ≠ JNull.

(** ** The responses of the specification's example *)

Definition account_body : string :=
  Reader.dq "{'account':{'image':'i','firstname':'F','surname':'S','available_earnings':'1','total_deposits':'2','balance':'3','country':'C'}}".

Definition username_body : string := Reader.dq "{'username':'u'}".

Definition email_body : string := Reader.dq "{'email':'e@x.com'}".

Definition account_member : json :=
  JObj (list_to_map
    [("image", JStr "i"); ("firstname", JStr "F"); ("surname", JStr "S");
     ("available_earnings", JStr "1"); ("total_deposits", JStr "2");
     ("balance", JStr "3"); ("country", JStr "C")]).

Definition account_json : json := JObj {[ "account" := account_member ]}.

Definition username_json : json := JObj {[ "username" := JStr "u" ]}.

Definition email_json : json := JObj {[ "email" := JStr "e@x.com" ]}.

Definition expected_profile : object :=
  list_to_map
    [("provider", VStr "envato"); ("image", VStr "i"); ("firstname", VStr "F");
     ("surname", VStr "S"); ("available_earnings", VStr "1");
     ("total_deposits", VStr "2"); ("balance", VStr "3"); ("country", VStr "C");
     ("username", VStr "u"); ("email", VStr "e@x.com");
     ("_raw", VStr account_body); ("_json", VData account_json)].

(** Where the constructor writes in the store it was given: three
    properties of the [options] object at [lo], and the [User-Agent] of the
    header map. *)
Definition defaults_footprint (lo : loc) (headers : value) (l : loc)
  (k : string) : Prop :=
  (l = lo ∧ (k = "authorizationURL" ∨ k = "tokenURL" ∨ k = "customHeaders"))
  ∨ (k = "User-Agent" ∧ headers = VRef l).

(** A queued callback belongs to an invocation on the strategy at [lt] and
    its profile was allocated at or after [base]. *)
Definition placed (base : nat) (lt : loc) (size : nat) (cl : closure) : Prop :=
  match cl with
  | OnAccount t _ _ => t = VRef lt
  | OnUsername t _ _ pr => t = VRef lt ∧ ∃ l, pr = VRef l ∧ base ≤ l < size
  | OnEmail _ pr => ∃ l, pr = VRef l ∧ base ≤ l < size
  end.

(** The store [h0] is still there, below what the running invocations have
    allocated, and every queued callback works above it. *)
Definition in_flight (h0 : list object) (lt : loc) (s : state) : Prop :=
  (∃ objs, heap s = h0 ++ objs) ∧
  Forall (placed (length h0) lt (length (heap s))) (pending s).

(** ** A worked configuration

    The options of the example in the source's documentation, a [verify]
    and a [done] function, and the strategy that the constructor builds
    from them with the stand-in for the generic strategy: the instance is
    object 3, its header map object 4, its client object 5. *)

Definition example_options : object :=
  list_to_map
    [("clientID", VStr "123-456-789");
     ("clientSecret", VStr "shhh-its-a-secret");
     ("callbackURL", VStr "https://www.example.net/auth/envato/callback");
     ("userAgent", VStr "myapp.com")].

Definition example_start : state := State [example_options; ∅; ∅] [] [].

Definition example_strategy : state :=
  (new_Strategy Host.OAuth2Strategy_call (VRef 0) (VRef 1) example_start).2.

(** A configuration whose header map has an empty [User-Agent]. *)
Definition empty_agent_start : state :=
  State [list_to_map [("clientID", VStr "123-456-789");
                      ("clientSecret", VStr "shhh-its-a-secret");
                      ("customHeaders", VRef 1)];
         {[ "User-Agent" := VStr EmptyString ]};
         ∅] [] [].

(** ** The program with the host's [done] left open

    Above, [done] returns normally.  What [done] does is the host's affair,
    and the program calls it in places where it matters: the call with the
    profile stands inside a [try] block.  Here the three callbacks are given
    once more, word for word, with the call of [done] as a parameter
    [host_done]; with [call_done] in its place they are the callbacks
    above. *)

(** The callback of the third request. *)
Definition on_email_with (JSON_parse : string -> string + json)
  (host_done : value -> value -> value -> M unit) (done profile : value)
  (r : reply) : M unit :=
  if truthy (err r) then
    host_done done (new_InternalOAuthError "failed to fetch email" (err r))
              VUndefined
  else
    try_catch
      (json ← parse JSON_parse (body r);
       x ← get_prop json "email";
       set_prop profile "email" x;;
       host_done done VNull profile)
      (fun e => host_done done e VUndefined).

(** The callback of the second request. *)
Definition on_username_with (JSON_parse : string -> string + json)
  (host_done : value -> value -> value -> M unit)
  (_this accessToken done profile : value) (r : reply) : M unit :=
  if truthy (err r) then
    host_done done (new_InternalOAuthError "failed to fetch username" (err r))
              VUndefined
  else
    try_catch
      (json ← parse JSON_parse (body r);
       x ← get_prop json "username";
       set_prop profile "username" x;;
       client ← get_prop _this "_oauth2";
       url ← get_prop _this "_userProfileEmail";
       oauth2_get client url accessToken (OnEmail done profile))
      (fun e => host_done done e VUndefined).

(** The callback of the first request. *)
Definition on_account_with (JSON_parse : string -> string + json)
  (host_done : value -> value -> value -> M unit)
  (_this accessToken done : value) (r : reply) : M unit :=
  if truthy (err r) then
    host_done done
              (new_InternalOAuthError "failed to fetch user profile" (err r))
              VUndefined
  else
    try_catch
      (json ← parse JSON_parse (body r);
       profile ← new_object {[ "provider" := VStr "envato" ]};
       a ← get_prop json "account"; x ← get_prop a "image";
       set_prop profile "image" x;;
       a ← get_prop json "account"; x ← get_prop a "firstname";
       set_prop profile "firstname" x;;
       a ← get_prop json "account"; x ← get_prop a "surname";
       set_prop profile "surname" x;;
       a ← get_prop json "account"; x ← get_prop a "available_earnings";
       set_prop profile "available_earnings" x;;
       a ← get_prop json "account"; x ← get_prop a "total_deposits";
       set_prop profile "total_deposits" x;;
       a ← get_prop json "account"; x ← get_prop a "balance";
       set_prop profile "balance" x;;
       a ← get_prop json "account"; x ← get_prop a "country";
       set_prop profile "country" x;;
       set_prop profile "_raw" (VStr (body r));;
       set_prop profile "_json" json;;
       client ← get_prop _this "_oauth2";
       url ← get_prop _this "_userProfileUsername";
       oauth2_get client url accessToken
                  (OnUsername _this accessToken done profile))
      (fun e => host_done done e VUndefined).

Definition apply_closure_with (JSON_parse : string -> string + json)
  (host_done : value -> value -> value -> M unit) (c : closure) (r : reply)
  : M unit :=
  match c with
  | OnAccount _this accessToken done =>
      on_account_with JSON_parse host_done _this accessToken done r
  | OnUsername _this accessToken done profile =>
      on_username_with JSON_parse host_done _this accessToken done profile r
  | OnEmail done profile => on_email_with JSON_parse host_done done profile r
  end.

(** The transport answers the oldest outstanding request. *)
Definition deliver_with (JSON_parse : string -> string + json)
  (host_done : value -> value -> value -> M unit) (s : state) (r : reply)
  : state :=
  match pending s with
  | [] => s
  | c :: rest =>
      call (apply_closure_with JSON_parse host_done c r)
           (State (heap s) rest (log s))
  end.

Definition deliver_all_with (JSON_parse : string -> string + json)
  (host_done : value -> value -> value -> M unit) (rs : list reply)
  (s : state) : state :=
  foldl (deliver_with JSON_parse host_done) s rs.

(** One invocation of [userProfile] followed by the transport's replies,
    in order. *)
Definition fetchProfile_with (JSON_parse : string -> string + json)
  (host_done : value -> value -> value -> M unit)
  (this accessToken done : value) (rs : list reply) (s : state) : state :=
  deliver_all_with JSON_parse host_done rs
                   (call (userProfile this accessToken done) s).

(** A [done] that records its arguments and then throws [e]. *)
Definition throwing_done (e : value) (done err profile : value) : M unit :=
  emit (Done done err profile);; throw e.

(** What is assumed of the host's [done].  It is recorded in the log that
    it was called, and it leaves the program's objects and the outstanding
    requests alone; it may return or throw. *)
Definition done_records (host_done : value -> value -> value -> M unit)
  : Prop :=
  ∀ d e p s, ∃ r,
    host_done d e p s = (r, State (heap s) (pending s) (log s ++ [Done d e p])).

(** The same, for a [done] that always returns. *)
Definition done_returns (host_done : value -> value -> value -> M unit)
  : Prop :=
  ∀ d e p s,
    host_done d e p s
    = (inr tt, State (heap s) (pending s) (log s ++ [Done d e p])).

(** ** The host's schedule *)

(** What the host does, one step at a time: it invokes [userProfile] on the
    strategy, or the transport answers one of the outstanding requests. *)
Inductive action : Type :=
  | Invoke (accessToken done : value)
  | Answer (i : nat) (r : reply).

(** The transport answers the request at position [i] of those outstanding:
    answers may come in any order. *)
Definition deliver_to (JSON_parse : string -> string + json)
  (host_done : value -> value -> value -> M unit) (i : nat)
  (s : state) (r : reply) : state :=
  match pending s !! i with
  | Some c =>
      call (apply_closure_with JSON_parse host_done c r)
           (State (heap s) (delete i (pending s)) (log s))
  | None => s
  end.

Definition act (JSON_parse : string -> string + json)
  (host_done : value -> value -> value -> M unit) (this : value)
  (s : state) (a : action) : state :=
  match a with
  | Invoke accessToken done => call (userProfile this accessToken done) s
  | Answer i r => deliver_to JSON_parse host_done i s r
  end.

Definition schedule (JSON_parse : string -> string + json)
  (host_done : value -> value -> value -> M unit) (this : value)
  (acts : list action) (s : state) : state :=
  foldl (act JSON_parse host_done this) s acts.

(** The completion callback a queued callback reports to. *)
Definition closure_done (cl : closure) : value :=
  match cl with
  | OnAccount _ _ d | OnUsername _ _ d _ | OnEmail d _ => d
  end.

(** Among the completion callbacks that [P] selects: the invocations of a
    schedule, the calls recorded in a log, the callbacks still queued. *)
Definition invoked (P : value -> bool) (acts : list action) : nat :=
  length (List.filter
            (fun a => match a with Invoke _ d => P d | Answer _ _ => false end)
            acts).

Definition completed (P : value -> bool) (l : list event) : nat :=
  length (List.filter
            (fun e => match e with Done d _ _ => P d | _ => false end) l).

Definition outstanding (P : value -> bool) (q : list closure) : nat :=
  length (List.filter (fun cl => P (closure_done cl)) q).

Definition is_uncaught (e : event) : bool :=
  match e with
  | Uncaught _ => true
  | _ => false
  end.

(** Since the store was [h0] and the log [log0], [n] of the selected
    invocations were made.  Each is still queued or is finished, and of the
    finished ones, [m] in number, each has called [done] once or twice.
    When [done] always returns it is once, and no exception escaped. *)
Definition accounted (host_done : value -> value -> value -> M unit)
  (P : value -> bool) (h0 : list object) (lt : loc)
  (log0 : list event) (n : nat) (s : state) : Prop :=
  in_flight h0 lt s ∧
  ∃ evs m, log s = log0 ++ evs ∧
           m + outstanding P (pending s) = n ∧
           m ≤ completed P evs ≤ 2 * m ∧
           (done_returns host_done ->
            completed P evs = m ∧
            Forall (fun e => is_uncaught e = false) evs).

(** ** The outcome of one invocation, from the replies *)

(** The label of the [k]-th request's failure. *)
Definition stage_label (k : nat) : string :=
  match k with
  | 1 => "failed to fetch user profile"
  | 2 => "failed to fetch username"
  | _ => "failed to fetch email"
  end.

(** The properties copied from [json.account]. *)
Definition account_fields : list string :=
  ["image"; "firstname"; "surname"; "available_earnings"; "total_deposits";
   "balance"; "country"].

(** The account request succeeds: no transport error, a body that parses,
    and in it an [account] that is neither missing nor [null]. *)
Definition account_good (JSON_parse : string -> string + json) (r : reply)
  : bool :=
  negb (truthy (err r)) &&
  match JSON_parse (body r) with
  | inr j => negb (nullish (member j "account"))
  | inl _ => false
  end.

(** A username or email request succeeds: no transport error and a body
    that parses to anything but [null]. *)
Definition answer_good (JSON_parse : string -> string + json) (r : reply)
  : bool :=
  negb (truthy (err r)) &&
  match JSON_parse (body r) with
  | inr j => negb (nullish (VData j))
  | inl _ => false
  end.

(** How many of the three requests an invocation issues: the next one only
    after the one before succeeded. *)
Definition requests_issued (JSON_parse : string -> string + json)
  (r1 r2 : reply) : nat :=
  if account_good JSON_parse r1 then
    if answer_good JSON_parse r2 then 3 else 2
  else 1.

(** The reply to the [k]-th request. *)
Definition reply_at (k : nat) (r1 r2 r3 : reply) : reply :=
  match k with
  | 1 => r1
  | 2 => r2
  | _ => r3
  end.

(** The error that the reply [r] to the [k]-th request ends the invocation
    with: the transport's error, wrapped and labelled; or the message of
    [JSON.parse]; or, for a body that parsed, a [TypeError]. *)
Definition stops_with (JSON_parse : string -> string + json) (k : nat)
  (r : reply) (e : value) : Prop :=
  (truthy (err r) = true ∧
   e = VError InternalOAuthError (stage_label k) (err r))
  ∨ (truthy (err r) = false ∧
     ∃ msg, JSON_parse (body r) = inl msg ∧
            e = VError SyntaxError msg VUndefined)
  ∨ (truthy (err r) = false ∧
     ∃ j msg, JSON_parse (body r) = inr j ∧
              e = VError TypeError msg VUndefined).

(** What follows the first call [done(e, p)] in the log, when that call is
    made in the state [s].  If the call returns, nothing.  A call without
    profile stands outside the [try] blocks or in a [catch] clause: what it
    throws escapes.  The call with the profile stands inside a [try] block:
    what it throws is handed to [done] in a second call, and what that one
    throws escapes. *)
Definition after_done (host_done : value -> value -> value -> M unit)
  (d e p : value) (s : state) : list event :=
  match host_done d e p s with
  | (inr _, _) => []
  | (inl x, s') =>
      match p with
      | VUndefined => [Uncaught x]
      | _ =>
          Done d x VUndefined ::
          match host_done d x VUndefined s' with
          | (inr _, _) => []
          | (inl y, _) => [Uncaught y]
          end
      end
  end.

(** The last entry of a log is a request. *)
Definition last_is_get (l : list event) : bool :=
  match last l with
  | Some g => is_get g
  | None => false
  end.

(** ** A second worked configuration

    Options that give one profile address, leave one empty and set the token
    address to [null]; [verify] is object 1. *)
Definition custom_options : object :=
  list_to_map
    [("clientID", VStr "123-456-789");
     ("clientSecret", VStr "shhh-its-a-secret");
     ("tokenURL", VNull);
     ("userProfileURL", VStr "https://example.net/account.json");
     ("userProfileUsername", VStr EmptyString)].

Definition custom_start : state := State [custom_options; ∅] [] [].

Definition custom_strategy : state :=
  (new_Strategy Host.OAuth2Strategy_call (VRef 0) (VRef 1) custom_start).2.

(** The strategy built a second time from the options of the first worked
    configuration. *)
Definition example_rebuilt : state :=
  (new_Strategy Host.OAuth2Strategy_call (VRef 0) (VRef 1) example_strategy).2.

(** A store that holds one empty object. *)
Definition bare_start : state := State [∅] [] [].

(** The completion callback [done] of the worked configuration, and no
    other. *)
Definition is_example_done (d : value) : bool :=
  match d with
  | VRef 2 => true
  | _ => false
  end.

(** * Proofs *)

(** ** The reader on a few texts *)

Example reader_reads_nested :
  Reader.JSON_parse (Reader.dq " { 'a' : [1, -2.5e3, true, null], 'a' : {} } ")
  = inr (JObj {[ "a" := JObj ∅ ]}).
Proof. vm_compute. reflexivity. Qed.

Example reader_reads_escapes :
  Reader.JSON_parse (Reader.dq "'tab\t, quote \u0022'")
  = inr (JStr (String "t" (String "a" (String "b" (String "009"
          (Reader.dq ", quote '")))))).
Proof. vm_compute. reflexivity. Qed.

Example reader_rejects_trailing_comma :
  Reader.JSON_parse "[1,]" = inl "Unexpected token in JSON".
Proof. vm_compute. reflexivity. Qed.

Example reader_rejects_leading_zero :
  Reader.JSON_parse "01" = inl "Unexpected token in JSON".
Proof. vm_compute. reflexivity. Qed.

Example reader_rejects_empty :
  Reader.JSON_parse EmptyString = inl "Unexpected token in JSON".
Proof. vm_compute. reflexivity. Qed.

(** ** The constructor without options

    [new Strategy(undefined, verify)]: the defaults are written to a new
    options object, which the stand-in for the generic strategy refuses for
    want of a client identifier. *)

Example construction_without_options :
  let '(r, s') := new_Strategy Host.OAuth2Strategy_call VUndefined (VRef 0)
                               (State [∅] [] []) in
  r = inl (type_error "OAuth2Strategy requires a clientID option") ∧
  length (heap s') = 4 ∧
  field (heap s') 2 "authorizationURL"
  = VStr "https://api.envato.com/authorization" ∧
  field (heap s') 2 "customHeaders" = VRef 3 ∧
  field (heap s') 3 "User-Agent" = VStr "passport-envato".
Proof. vm_compute. done. Qed.

(** ** The store *)

Lemma field_app_l (h h' : list object) (l : loc) (k : string) :
  l < length h -> field (h ++ h') l k = field h l k.
Proof. intros Hl. unfold field. by rewrite lookup_app_l. Qed.

Lemma field_middle (h h' : list object) (o : object) (k : string) :
  field (h ++ o :: h') (length h) k = default VUndefined (o !! k).
Proof. unfold field. by rewrite list_lookup_middle. Qed.

Lemma alter_middle (f : object -> object) (h h' : list object) (o : object) :
  alter f (length h) (h ++ o :: h') = h ++ f o :: h'.
Proof.
  replace (length h) with (length h + 0) by lia.
  by rewrite alter_app_r.
Qed.

Lemma strategy_at_app h h' l c u1 u2 u3 :
  strategy_at h l c u1 u2 u3 -> strategy_at (h ++ h') l c u1 u2 u3.
Proof.
  intros (Hl & Hc & H0 & H1 & H2 & H3).
  unfold strategy_at. rewrite !field_app_l by done.
  rewrite length_app. repeat split; try done. lia.
Qed.

Lemma json_null_dec (j : json) : j = JNull ∨ j ≠ JNull.
Proof. destruct j; (by left) || (by right). Qed.

(** ** Running computations, one statement at a time *)

Lemma bind_ret {A B : Type} (a : A) (f : A -> M B) (s : state) :
  (mret a ≫= f) s = f a s.
Proof. reflexivity. Qed.

Lemma bind_get_ref {B : Type} (l : loc) (k : string) (f : value -> M B)
  (s : state) :
  (get_prop (VRef l) k ≫= f) s = f (field (heap s) l k) s.
Proof. reflexivity. Qed.

Lemma bind_get_old {B : Type} (l : loc) (k : string) (f : value -> M B)
  (h h' : list object) (p : list closure) (lg : list event) :
  l < length h ->
  (get_prop (VRef l) k ≫= f) (State (h ++ h') p lg)
  = f (field h l k) (State (h ++ h') p lg).
Proof. intros Hl. rewrite bind_get_ref. cbn [heap]. by rewrite field_app_l. Qed.

Lemma bind_get_data {B : Type} (j : json) (k : string) (f : value -> M B)
  (s : state) :
  j ≠ JNull -> (get_prop (VData j) k ≫= f) s = f (member j k) s.
Proof. intros H. by destruct j. Qed.

Lemma bind_get_nullish {B : Type} (v : value) (k : string) (f : value -> M B)
  (s : state) :
  nullish v = true ->
  (get_prop v k ≫= f) s
  = (inl (type_error ("Cannot read property '" +:+ k +:+ "'")), s).
Proof. intros H. unfold mbind, M_bind, get_prop. by rewrite H. Qed.

Lemma bind_set_ref {B : Type} (l : loc) (k : string) (x : value)
  (f : unit -> M B) (s : state) :
  (set_prop (VRef l) k x ≫= f) s
  = f tt (State (alter (fun o : object => <[k := x]> o) l (heap s))
                (pending s) (log s)).
Proof. reflexivity. Qed.

Lemma bind_set_at {B : Type} (k : string) (x : value) (f : unit -> M B)
  (h h' : list object) (o : object) (p : list closure) (lg : list event) :
  (set_prop (VRef (length h)) k x ≫= f) (State (h ++ o :: h') p lg)
  = f tt (State (h ++ <[k := x]> o :: h') p lg).
Proof. rewrite bind_set_ref. cbn [heap pending log]. by rewrite alter_middle. Qed.

Lemma bind_new_object {B : Type} (o : object) (f : value -> M B) (s : state) :
  (new_object o ≫= f) s
  = f (VRef (length (heap s))) (State (heap s ++ [o]) (pending s) (log s)).
Proof. reflexivity. Qed.

Lemma oauth2_get_ok client url tok cb s :
  nullish client = false ->
  oauth2_get client url tok cb s
  = (inr tt, State (heap s) (pending s ++ [cb]) (log s ++ [Get client url tok])).
Proof. intros H. unfold oauth2_get. by rewrite H. Qed.

Ltac run :=
  repeat first
    [ progress cbn [heap pending log]
    | rewrite bind_ret
    | rewrite bind_new_object
    | rewrite bind_get_data by done
    | rewrite bind_set_at
    | rewrite bind_get_old by done
    | match goal with H : member _ _ = _ |- _ => rewrite H end
    | match goal with H : field _ _ _ = _ |- _ => rewrite H end ].

Lemma member_cases (j : json) (k : string) :
  member j k = VUndefined ∨ ∃ a, member j k = VData a.
Proof.
  destruct j; try by left. cbn [member].
  destruct (members !! k); [right; by eexists | by left].
Qed.

Lemma complete_profile (j a : json) (text : string) (u e : value) :
  complete (<["email" := e]> (<["username" := u]> (account_profile j a text))).
Proof.
  unfold complete, profile_fields, account_profile.
  repeat (apply Forall_cons; split); [..|apply Forall_nil]; vm_compute; by eexists.
Qed.

Section Profile.

Variable JSON_parse : string -> string + json.

(** *** The first callback *)

Lemma on_account_failed _this tok d r s :
  truthy (err r) = true ->
  on_account JSON_parse _this tok d r s
  = (inr tt, State (heap s) (pending s)
       (log s ++ [Done d (new_InternalOAuthError "failed to fetch user profile"
                                                 (err r)) VUndefined])).
Proof. intros He. unfold on_account. by rewrite He. Qed.

Lemma on_account_malformed _this tok d r s msg :
  truthy (err r) = false ->
  JSON_parse (body r) = inl msg ->
  on_account JSON_parse _this tok d r s
  = (inr tt, State (heap s) (pending s)
       (log s ++ [Done d (VError SyntaxError msg VUndefined) VUndefined])).
Proof.
  intros He Hp. unfold on_account, try_catch, parse. by rewrite He, Hp.
Qed.

Lemma on_account_no_account _this tok d r j :
  truthy (err r) = false ->
  JSON_parse (body r) = inr j ->
  j = JNull ∨ nullish (member j "account") = true ->
  ∃ msg, ∀ s,
    on_account JSON_parse _this tok d r s
    = (inr tt, State (heap s ++ [{[ "provider" := VStr "envato" ]}]) (pending s)
         (log s ++ [Done d (type_error msg) VUndefined])).
Proof.
  intros He Hp Hj. unfold on_account, try_catch, parse. rewrite He, Hp.
  destruct (json_null_dec j) as [->|Hn].
  - eexists. intros [h p lg]. run. by rewrite bind_get_nullish.
  - destruct Hj as [?|Ha]; [done|].
    eexists. intros [h p lg]. run. by rewrite bind_get_nullish.
Qed.

Lemma on_account_ok lt tok d r s j a c u1 u2 u3 :
  truthy (err r) = false ->
  JSON_parse (body r) = inr j ->
  member j "account" = VData a -> a ≠ JNull ->
  strategy_at (heap s) lt c u1 u2 u3 ->
  on_account JSON_parse (VRef lt) tok d r s
  = (inr tt,
     State (heap s ++ [account_profile j a (body r)])
           (pending s ++ [OnUsername (VRef lt) tok d (VRef (length (heap s)))])
           (log s ++ [Get c u2 tok])).
Proof.
  intros He Hp Ha Hn (Hl & Hc & H0 & H1 & H2 & H3).
  assert (Hj : j ≠ JNull) by (intros ->; discriminate).
  unfold on_account, try_catch, parse. rewrite He, Hp.
  destruct s as [h p lg]. cbn [heap pending log] in *.
  run. by rewrite oauth2_get_ok.
Qed.

(** *** The second callback *)

Lemma on_username_failed _this tok d profile r s :
  truthy (err r) = true ->
  on_username JSON_parse _this tok d profile r s
  = (inr tt, State (heap s) (pending s)
       (log s ++ [Done d (new_InternalOAuthError "failed to fetch username"
                                                 (err r)) VUndefined])).
Proof. intros He. unfold on_username. by rewrite He. Qed.

Lemma on_username_malformed _this tok d profile r s msg :
  truthy (err r) = false ->
  JSON_parse (body r) = inl msg ->
  on_username JSON_parse _this tok d profile r s
  = (inr tt, State (heap s) (pending s)
       (log s ++ [Done d (VError SyntaxError msg VUndefined) VUndefined])).
Proof.
  intros He Hp. unfold on_username, try_catch, parse. by rewrite He, Hp.
Qed.

Lemma on_username_null _this tok d profile r s :
  truthy (err r) = false ->
  JSON_parse (body r) = inr JNull ->
  on_username JSON_parse _this tok d profile r s
  = (inr tt, State (heap s) (pending s)
       (log s ++ [Done d (type_error "Cannot read property 'username'")
                       VUndefined])).
Proof.
  intros He Hp. unfold on_username, try_catch, parse. by rewrite He, Hp.
Qed.

Lemma on_username_ok lt tok d r h o h' p lg j c u1 u2 u3 :
  truthy (err r) = false ->
  JSON_parse (body r) = inr j -> j ≠ JNull ->
  strategy_at h lt c u1 u2 u3 ->
  on_username JSON_parse (VRef lt) tok d (VRef (length h)) r
              (State (h ++ o :: h') p lg)
  = (inr tt,
     State (h ++ <["username" := member j "username"]> o :: h')
           (p ++ [OnEmail d (VRef (length h))])
           (lg ++ [Get c u3 tok])).
Proof.
  intros He Hp Hj (Hl & Hc & H0 & H1 & H2 & H3).
  unfold on_username, try_catch, parse. rewrite He, Hp.
  run. by rewrite oauth2_get_ok.
Qed.

(** *** The third callback *)

Lemma on_email_failed d profile r s :
  truthy (err r) = true ->
  on_email JSON_parse d profile r s
  = (inr tt, State (heap s) (pending s)
       (log s ++ [Done d (new_InternalOAuthError "failed to fetch email"
                                                 (err r)) VUndefined])).
Proof. intros He. unfold on_email. by rewrite He. Qed.

Lemma on_email_malformed d profile r s msg :
  truthy (err r) = false ->
  JSON_parse (body r) = inl msg ->
  on_email JSON_parse d profile r s
  = (inr tt, State (heap s) (pending s)
       (log s ++ [Done d (VError SyntaxError msg VUndefined) VUndefined])).
Proof.
  intros He Hp. unfold on_email, try_catch, parse. by rewrite He, Hp.
Qed.

Lemma on_email_null d profile r s :
  truthy (err r) = false ->
  JSON_parse (body r) = inr JNull ->
  on_email JSON_parse d profile r s
  = (inr tt, State (heap s) (pending s)
       (log s ++ [Done d (type_error "Cannot read property 'email'")
                       VUndefined])).
Proof.
  intros He Hp. unfold on_email, try_catch, parse. by rewrite He, Hp.
Qed.

Lemma on_email_ok d r h o h' p lg j :
  truthy (err r) = false ->
  JSON_parse (body r) = inr j -> j ≠ JNull ->
  on_email JSON_parse d (VRef (length h)) r (State (h ++ o :: h') p lg)
  = (inr tt,
     State (h ++ <["email" := member j "email"]> o :: h') p
           (lg ++ [Done d VNull (VRef (length h))])).
Proof.
  intros He Hp Hj.
  unfold on_email, try_catch, parse. rewrite He, Hp.
  run. reflexivity.
Qed.

(** *** The event loop *)

Lemma userProfile_run lt tok d s c u1 u2 u3 :
  strategy_at (heap s) lt c u1 u2 u3 ->
  userProfile (VRef lt) tok d s
  = (inr tt, State (heap s) (pending s ++ [OnAccount (VRef lt) tok d])
                   (log s ++ [Get c u1 tok])).
Proof.
  intros (Hl & Hc & H0 & H1 & H2 & H3). unfold userProfile.
  rewrite !bind_get_ref, H0, H1. by rewrite oauth2_get_ok.
Qed.

Lemma deliver_all_idle rs s : pending s = [] -> deliver_all JSON_parse rs s = s.
Proof.
  intros Hp. unfold deliver_all.
  induction rs as [|r rs IH]; [done|]. cbn [foldl].
  replace (deliver JSON_parse s r) with s; [done|].
  unfold deliver. by rewrite Hp.
Qed.

Lemma deliver_all_step c r rs h p lg s' :
  apply_closure JSON_parse c r (State h p lg) = (inr tt, s') ->
  deliver_all JSON_parse (r :: rs) (State h (c :: p) lg)
  = deliver_all JSON_parse rs s'.
Proof.
  intros H. unfold deliver_all. cbn [foldl]. f_equal.
  unfold deliver, call. cbn [heap pending log]. by rewrite H.
Qed.

Lemma fetchProfile_start lt tok d rs s c u1 u2 u3 :
  ready s lt c u1 u2 u3 ->
  fetchProfile JSON_parse (VRef lt) tok d rs s
  = deliver_all JSON_parse rs
      (State (heap s) [OnAccount (VRef lt) tok d] (log s ++ [Get c u1 tok])).
Proof.
  intros [Hp Hs]. unfold fetchProfile, call.
  by rewrite (userProfile_run _ _ _ _ _ _ _ _ Hs), Hp.
Qed.

(** *** The ten paths through one invocation *)

Ltac start :=
  match goal with
  | Hr : ready ?s _ _ _ _ _ |- _ =>
      rewrite (fetchProfile_start _ _ _ _ _ _ _ _ _ Hr);
      destruct s as [h p lg]; destruct Hr as [Hp Hs];
      cbn [heap pending log] in *
  end.

Ltac deliver_by L :=
  erewrite deliver_all_step;
    [ | cbn [apply_closure]; eapply L; cbn [heap pending log]; by eauto ];
  cbn [heap pending log]; rewrite ?app_nil_l.

Ltac finish :=
  rewrite deliver_all_idle by done;
  rewrite <- ?app_assoc; reflexivity.

Lemma path_account_failed lt tok d c u1 u2 u3 r1 rest s :
  ready s lt c u1 u2 u3 ->
  truthy (err r1) = true ->
  fetchProfile JSON_parse (VRef lt) tok d (r1 :: rest) s
  = State (heap s) []
      (log s ++ [Get c u1 tok;
                 Done d (new_InternalOAuthError "failed to fetch user profile"
                                                (err r1)) VUndefined]).
Proof. intros Hr He. start. deliver_by on_account_failed. finish. Qed.

Lemma path_account_malformed lt tok d c u1 u2 u3 r1 rest s msg :
  ready s lt c u1 u2 u3 ->
  truthy (err r1) = false -> JSON_parse (body r1) = inl msg ->
  fetchProfile JSON_parse (VRef lt) tok d (r1 :: rest) s
  = State (heap s) []
      (log s ++ [Get c u1 tok;
                 Done d (VError SyntaxError msg VUndefined) VUndefined]).
Proof. intros Hr He Hm. start. deliver_by on_account_malformed. finish. Qed.

Lemma path_account_no_account lt tok d c u1 u2 u3 r1 rest j :
  truthy (err r1) = false -> JSON_parse (body r1) = inr j ->
  j = JNull ∨ nullish (member j "account") = true ->
  ∃ msg, ∀ s,
    ready s lt c u1 u2 u3 ->
    fetchProfile JSON_parse (VRef lt) tok d (r1 :: rest) s
    = State (heap s ++ [{[ "provider" := VStr "envato" ]}]) []
        (log s ++ [Get c u1 tok; Done d (type_error msg) VUndefined]).
Proof.
  intros He Hj Hn.
  destruct (on_account_no_account (VRef lt) tok d r1 j He Hj Hn) as [msg Hm].
  exists msg. intros s Hr. start.
  erewrite deliver_all_step; [ | cbn [apply_closure]; apply Hm ].
  cbn [heap pending log]. finish.
Qed.

Lemma path_username_failed lt tok d c u1 u2 u3 r1 r2 rest s j a :
  ready s lt c u1 u2 u3 ->
  account_ok JSON_parse r1 j a ->
  truthy (err r2) = true ->
  fetchProfile JSON_parse (VRef lt) tok d (r1 :: r2 :: rest) s
  = State (heap s ++ [account_profile j a (body r1)]) []
      (log s ++ [Get c u1 tok; Get c u2 tok;
                 Done d (new_InternalOAuthError "failed to fetch username"
                                                (err r2)) VUndefined]).
Proof.
  intros Hr (He1 & Hj & Ha & Hn) He2. start.
  deliver_by on_account_ok. deliver_by on_username_failed. finish.
Qed.

Lemma path_username_malformed lt tok d c u1 u2 u3 r1 r2 rest s j a msg :
  ready s lt c u1 u2 u3 ->
  account_ok JSON_parse r1 j a ->
  truthy (err r2) = false -> JSON_parse (body r2) = inl msg ->
  fetchProfile JSON_parse (VRef lt) tok d (r1 :: r2 :: rest) s
  = State (heap s ++ [account_profile j a (body r1)]) []
      (log s ++ [Get c u1 tok; Get c u2 tok;
                 Done d (VError SyntaxError msg VUndefined) VUndefined]).
Proof.
  intros Hr (He1 & Hj & Ha & Hn) He2 Hm. start.
  deliver_by on_account_ok. deliver_by on_username_malformed. finish.
Qed.

Lemma path_username_null lt tok d c u1 u2 u3 r1 r2 rest s j a :
  ready s lt c u1 u2 u3 ->
  account_ok JSON_parse r1 j a ->
  truthy (err r2) = false -> JSON_parse (body r2) = inr JNull ->
  fetchProfile JSON_parse (VRef lt) tok d (r1 :: r2 :: rest) s
  = State (heap s ++ [account_profile j a (body r1)]) []
      (log s ++ [Get c u1 tok; Get c u2 tok;
                 Done d (type_error "Cannot read property 'username'")
                      VUndefined]).
Proof.
  intros Hr (He1 & Hj & Ha & Hn) He2 Hm. start.
  deliver_by on_account_ok. deliver_by on_username_null. finish.
Qed.

Lemma path_email_failed lt tok d c u1 u2 u3 r1 r2 r3 rest s j a j2 :
  ready s lt c u1 u2 u3 ->
  account_ok JSON_parse r1 j a ->
  answer_ok JSON_parse r2 j2 ->
  truthy (err r3) = true ->
  fetchProfile JSON_parse (VRef lt) tok d (r1 :: r2 :: r3 :: rest) s
  = State (heap s ++ [<["username" := member j2 "username"]>
                        (account_profile j a (body r1))]) []
      (log s ++ [Get c u1 tok; Get c u2 tok; Get c u3 tok;
                 Done d (new_InternalOAuthError "failed to fetch email"
                                                (err r3)) VUndefined]).
Proof.
  intros Hr (He1 & Hj & Ha & Hn) (He2 & Hj2 & Hn2) He3. start.
  deliver_by on_account_ok. deliver_by on_username_ok.
  deliver_by on_email_failed. finish.
Qed.

Lemma path_email_malformed lt tok d c u1 u2 u3 r1 r2 r3 rest s j a j2 msg :
  ready s lt c u1 u2 u3 ->
  account_ok JSON_parse r1 j a ->
  answer_ok JSON_parse r2 j2 ->
  truthy (err r3) = false -> JSON_parse (body r3) = inl msg ->
  fetchProfile JSON_parse (VRef lt) tok d (r1 :: r2 :: r3 :: rest) s
  = State (heap s ++ [<["username" := member j2 "username"]>
                        (account_profile j a (body r1))]) []
      (log s ++ [Get c u1 tok; Get c u2 tok; Get c u3 tok;
                 Done d (VError SyntaxError msg VUndefined) VUndefined]).
Proof.
  intros Hr (He1 & Hj & Ha & Hn) (He2 & Hj2 & Hn2) He3 Hm. start.
  deliver_by on_account_ok. deliver_by on_username_ok.
  deliver_by on_email_malformed. finish.
Qed.

Lemma path_email_null lt tok d c u1 u2 u3 r1 r2 r3 rest s j a j2 :
  ready s lt c u1 u2 u3 ->
  account_ok JSON_parse r1 j a ->
  answer_ok JSON_parse r2 j2 ->
  truthy (err r3) = false -> JSON_parse (body r3) = inr JNull ->
  fetchProfile JSON_parse (VRef lt) tok d (r1 :: r2 :: r3 :: rest) s
  = State (heap s ++ [<["username" := member j2 "username"]>
                        (account_profile j a (body r1))]) []
      (log s ++ [Get c u1 tok; Get c u2 tok; Get c u3 tok;
                 Done d (type_error "Cannot read property 'email'")
                      VUndefined]).
Proof.
  intros Hr (He1 & Hj & Ha & Hn) (He2 & Hj2 & Hn2) He3 Hm. start.
  deliver_by on_account_ok. deliver_by on_username_ok.
  deliver_by on_email_null. finish.
Qed.

Lemma path_fetched lt tok d c u1 u2 u3 r1 r2 r3 rest s j a j2 j3 :
  ready s lt c u1 u2 u3 ->
  account_ok JSON_parse r1 j a ->
  answer_ok JSON_parse r2 j2 ->
  answer_ok JSON_parse r3 j3 ->
  fetchProfile JSON_parse (VRef lt) tok d (r1 :: r2 :: r3 :: rest) s
  = State (heap s ++ [<["email" := member j3 "email"]>
                        (<["username" := member j2 "username"]>
                           (account_profile j a (body r1)))]) []
      (log s ++ [Get c u1 tok; Get c u2 tok; Get c u3 tok;
                 Done d VNull (VRef (length (heap s)))]).
Proof.
  intros Hr (He1 & Hj & Ha & Hn) (He2 & Hj2 & Hn2) (He3 & Hj3 & Hn3). start.
  deliver_by on_account_ok. deliver_by on_username_ok.
  deliver_by on_email_ok. finish.
Qed.

(** *** What one invocation does, whatever the store holds *)



(** *** The claims about [userProfile] *)

(** C1.  When the three requests succeed with the bodies of the
    specification's example, and [JSON.parse] reads them as the JSON they
    denote, [done] is called once with [null] and a new profile object whose
    properties are [provider = "envato"], the seven account properties, the
    username, the email, and the text and parsed JSON of the account response
    under [_raw] and [_json]. *)
Theorem fetch_example_profile lt tok d c u1 u2 u3 e1 e2 e3 rest s :
  ready s lt c u1 u2 u3 ->
  truthy e1 = false -> truthy e2 = false -> truthy e3 = false ->
  JSON_parse account_body = inr account_json ->
  JSON_parse username_body = inr username_json ->
  JSON_parse email_body = inr email_json ->
  let s' := fetchProfile JSON_parse (VRef lt) tok d
              (Reply e1 account_body :: Reply e2 username_body
               :: Reply e3 email_body :: rest) s in
  log s' = log s ++ [Get c u1 tok; Get c u2 tok; Get c u3 tok;
                     Done d VNull (VRef (length (heap s)))] ∧
  heap s !! length (heap s) = None ∧
  heap s' !! length (heap s) = Some expected_profile.
Proof.
  intros Hr E1 E2 E3 P1 P2 P3 s'.
  assert (Hs : s' = State (heap s ++ [expected_profile]) []
                      (log s ++ [Get c u1 tok; Get c u2 tok; Get c u3 tok;
                                 Done d VNull (VRef (length (heap s)))])).
  { assert (A1 : account_ok JSON_parse (Reply e1 account_body)
                              account_json account_member).
    { unfold account_ok. split_and!; [exact E1 | exact P1 | by vm_compute | discriminate]. }
    assert (A2 : answer_ok JSON_parse (Reply e2 username_body) username_json).
    { unfold answer_ok. split_and!; [exact E2 | exact P2 | discriminate]. }
    assert (A3 : answer_ok JSON_parse (Reply e3 email_body) email_json).
    { unfold answer_ok. split_and!; [exact E3 | exact P3 | discriminate]. }
    unfold s'.
    rewrite (path_fetched lt tok d c u1 u2 u3 _ _ _ rest s _ _ _ _ Hr A1 A2 A3).
    cbn [body]. by f_equal. }
  rewrite Hs. cbn [heap log]. split; [done|]. split.
  - by apply lookup_ge_None_2.
  - by rewrite list_lookup_middle.
Qed.

(** C2.  A transport error at one of the three requests makes [done] receive
    an [InternalOAuthError] with the label of that stage and the transport's
    error; the request is not repeated and no later request is issued,
    whatever replies follow. *)
Theorem transport_error_aborts lt tok d c u1 u2 u3 r1 r2 r3 rest s :
  ready s lt c u1 u2 u3 ->
  (truthy (err r1) = true ->
   let s' := fetchProfile JSON_parse (VRef lt) tok d (r1 :: rest) s in
   pending s' = [] ∧
   log s' = log s ++
     [Get c u1 tok;
      Done d (VError InternalOAuthError "failed to fetch user profile" (err r1))
           VUndefined]) ∧
  (∀ j a, account_ok JSON_parse r1 j a -> truthy (err r2) = true ->
   let s' := fetchProfile JSON_parse (VRef lt) tok d (r1 :: r2 :: rest) s in
   pending s' = [] ∧
   log s' = log s ++
     [Get c u1 tok; Get c u2 tok;
      Done d (VError InternalOAuthError "failed to fetch username" (err r2))
           VUndefined]) ∧
  (∀ j a j2, account_ok JSON_parse r1 j a -> answer_ok JSON_parse r2 j2 ->
   truthy (err r3) = true ->
   let s' := fetchProfile JSON_parse (VRef lt) tok d (r1 :: r2 :: r3 :: rest) s in
   pending s' = [] ∧
   log s' = log s ++
     [Get c u1 tok; Get c u2 tok; Get c u3 tok;
      Done d (VError InternalOAuthError "failed to fetch email" (err r3))
           VUndefined]).
Proof.
  intros Hr. repeat split.
  - by erewrite path_account_failed.
  - by erewrite path_account_failed.
  - by erewrite path_username_failed.
  - by erewrite path_username_failed.
  - by erewrite path_email_failed.
  - by erewrite path_email_failed.
Qed.

(** C3.  A body that [JSON.parse] rejects, at any of the three requests,
    makes [done] receive the [SyntaxError] of that parse failure and no
    profile; no later request is issued. *)
Theorem malformed_body_aborts lt tok d c u1 u2 u3 r1 r2 r3 rest s msg :
  ready s lt c u1 u2 u3 ->
  (truthy (err r1) = false -> JSON_parse (body r1) = inl msg ->
   let s' := fetchProfile JSON_parse (VRef lt) tok d (r1 :: rest) s in
   pending s' = [] ∧
   log s' = log s ++
     [Get c u1 tok; Done d (VError SyntaxError msg VUndefined) VUndefined]) ∧
  (∀ j a, account_ok JSON_parse r1 j a ->
   truthy (err r2) = false -> JSON_parse (body r2) = inl msg ->
   let s' := fetchProfile JSON_parse (VRef lt) tok d (r1 :: r2 :: rest) s in
   pending s' = [] ∧
   log s' = log s ++
     [Get c u1 tok; Get c u2 tok;
      Done d (VError SyntaxError msg VUndefined) VUndefined]) ∧
  (∀ j a j2, account_ok JSON_parse r1 j a -> answer_ok JSON_parse r2 j2 ->
   truthy (err r3) = false -> JSON_parse (body r3) = inl msg ->
   let s' := fetchProfile JSON_parse (VRef lt) tok d (r1 :: r2 :: r3 :: rest) s in
   pending s' = [] ∧
   log s' = log s ++
     [Get c u1 tok; Get c u2 tok; Get c u3 tok;
      Done d (VError SyntaxError msg VUndefined) VUndefined]).
Proof.
  intros Hr. repeat split.
  - by erewrite path_account_malformed.
  - by erewrite path_account_malformed.
  - by erewrite path_username_malformed.
  - by erewrite path_username_malformed.
  - by erewrite path_email_malformed.
  - by erewrite path_email_malformed.
Qed.


(** C8.  Two invocations in a row on one instance, with the same token and
    replies that succeed.  Each calls [done] with a profile of its own: the
    two addresses differ, each was unused before its invocation, and both
    objects hold the profile that the replies determine.  The second
    invocation leaves the first profile, and every object that was there
    before, as it was; all that the two invocations add to the store is the
    two profiles. *)
Theorem repeated_fetch_fresh_equal lt tok d c u1 u2 u3 r1 r2 r3 s j a j2 j3 :
  ready s lt c u1 u2 u3 ->
  account_ok JSON_parse r1 j a ->
  answer_ok JSON_parse r2 j2 -> answer_ok JSON_parse r3 j3 ->
  let s1 := fetchProfile JSON_parse (VRef lt) tok d [r1; r2; r3] s in
  let s2 := fetchProfile JSON_parse (VRef lt) tok d [r1; r2; r3] s1 in
  let n1 := length (heap s) in
  let n2 := length (heap s1) in
  let profile :=
    <["email" := member j3 "email"]>
      (<["username" := member j2 "username"]>
         (account_profile j a (body r1))) in
  log s1 = log s ++ [Get c u1 tok; Get c u2 tok; Get c u3 tok;
                     Done d VNull (VRef n1)] ∧
  log s2 = log s1 ++ [Get c u1 tok; Get c u2 tok; Get c u3 tok;
                      Done d VNull (VRef n2)] ∧
  n1 ≠ n2 ∧
  heap s !! n1 = None ∧ heap s1 !! n1 = Some profile ∧
  heap s1 !! n2 = None ∧
  heap s2 !! n1 = Some profile ∧ heap s2 !! n2 = Some profile ∧
  complete profile ∧
  heap s2 = heap s ++ [profile; profile].
Proof.
  intros Hr A1 A2 A3 s1 s2 n1 n2 profile.
  assert (H1 : s1 = State (heap s ++ [profile]) []
                      (log s ++ [Get c u1 tok; Get c u2 tok; Get c u3 tok;
                                 Done d VNull (VRef (length (heap s)))]))
    by (by eapply path_fetched).
  assert (Hr1 : ready s1 lt c u1 u2 u3).
  { rewrite H1. split; [done|]. apply strategy_at_app, Hr. }
  assert (H2 : s2 = State (heap s1 ++ [profile]) []
                      (log s1 ++ [Get c u1 tok; Get c u2 tok; Get c u3 tok;
                                  Done d VNull (VRef (length (heap s1)))]))
    by (by eapply path_fetched).
  assert (Hn2 : n2 = S n1).
  { unfold n2, n1. rewrite H1. cbn [heap]. rewrite length_app. cbn [length]. lia. }
  assert (Hh1 : heap s1 = heap s ++ [profile]) by (by rewrite H1).
  assert (Hh2 : heap s2 = heap s ++ [profile; profile]).
  { rewrite H2. cbn [heap]. rewrite Hh1. by rewrite <- app_assoc. }
  split_and!.
  - by rewrite H1.
  - by rewrite H2.
  - lia.
  - by apply lookup_ge_None_2.
  - rewrite Hh1. by rewrite list_lookup_middle.
  - by apply lookup_ge_None_2.
  - rewrite Hh2. by rewrite list_lookup_middle.
  - rewrite Hh2, lookup_app_r by (unfold n1 in Hn2; lia).
    by replace (n2 - length (heap s)) with 1 by (unfold n1 in Hn2; lia).
  - apply complete_profile.
  - exact Hh2.
Qed.

(** C9, as amended.  When the account body parses to [null], or to a value
    whose [account] property is missing or [null], reading [json.account] or
    [json.account.image] throws a [TypeError]; [done] receives it as the
    error, and neither the username nor the email request is issued. *)
Theorem missing_account_throws lt tok d c u1 u2 u3 r1 rest s j :
  ready s lt c u1 u2 u3 ->
  truthy (err r1) = false -> JSON_parse (body r1) = inr j ->
  j = JNull ∨ member j "account" = VUndefined ∨ member j "account" = VNull ->
  let s' := fetchProfile JSON_parse (VRef lt) tok d (r1 :: rest) s in
  pending s' = [] ∧
  ∃ msg, log s' = log s ++
    [Get c u1 tok; Done d (VError TypeError msg VUndefined) VUndefined].
Proof.
  intros Hr He Hp Hj s'.
  destruct (path_account_no_account lt tok d c u1 u2 u3 r1 rest j He Hp)
    as [msg Hm].
  { destruct Hj as [?|[->| ->]]; [by left|by right..]. }
  unfold s'. rewrite (Hm s Hr). split; [done|]. by exists msg.
Qed.

(** C10, as amended.  A username or email body that parses to anything but
    [null] and has no [username], respectively [email], property does not
    stop the invocation: when the other requests succeed, [done] receives the
    profile, whose [username], respectively [email], is [undefined]. *)
Theorem missing_member_is_undefined lt tok d c u1 u2 u3 r1 r2 r3 rest s j a j2 j3 :
  ready s lt c u1 u2 u3 ->
  account_ok JSON_parse r1 j a ->
  answer_ok JSON_parse r2 j2 -> answer_ok JSON_parse r3 j3 ->
  let s' := fetchProfile JSON_parse (VRef lt) tok d (r1 :: r2 :: r3 :: rest) s in
  let profile := length (heap s) in
  log s' = log s ++ [Get c u1 tok; Get c u2 tok; Get c u3 tok;
                     Done d VNull (VRef profile)] ∧
  field (heap s') profile "username" = member j2 "username" ∧
  field (heap s') profile "email" = member j3 "email" ∧
  (member j2 "username" = VUndefined ->
   field (heap s') profile "username" = VUndefined) ∧
  (member j3 "email" = VUndefined ->
   field (heap s') profile "email" = VUndefined).
Proof.
  intros Hr H1 H2 H3 s' profile.
  assert (Hu : field (heap s') profile "username" = member j2 "username").
  { unfold s', profile. erewrite path_fetched by done. cbn [heap].
    rewrite field_middle.
    rewrite lookup_insert_ne by done. by rewrite lookup_insert_eq. }
  assert (Hm : field (heap s') profile "email" = member j3 "email").
  { unfold s', profile. erewrite path_fetched by done. cbn [heap].
    rewrite field_middle. by rewrite lookup_insert_eq. }
  split; [unfold s', profile; by erewrite path_fetched|].
  repeat split; try done.
  - intros <-. done.
  - intros <-. done.
Qed.

End Profile.

(** ** What [userProfile] leaves alone *)

Lemma placed_mono base lt size size' cl :
  size ≤ size' -> placed base lt size cl -> placed base lt size' cl.
Proof.
  intros Hle. destruct cl; cbn [placed]; [done| |].
  - intros (? & l & ? & ?). split; [done|]. exists l. split; [done|lia].
  - intros (l & ? & ?). exists l. split; [done|lia].
Qed.

Lemma split_at (objs : list object) (i : nat) :
  i < length objs -> ∃ a o b, objs = a ++ o :: b ∧ length a = i.
Proof.
  intros Hi. destruct (lookup_lt_is_Some_2 objs i Hi) as [o Ho].
  exists (take i objs), o, (drop (S i) objs). split.
  - by rewrite take_drop_middle.
  - rewrite length_take. lia.
Qed.

Section Frame.

Variable JSON_parse : string -> string + json.





End Frame.

(** ** Two invocations at once *)

Lemma snoc2 {A : Type} (h : list A) (a b : A) :
  h ++ [a; b] = (h ++ [a]) ++ [b].
Proof. by rewrite <- app_assoc. Qed.

Section Interleaved.

Variable JSON_parse : string -> string + json.

(** X8.  Two invocations in flight at once, answered in turn: each builds
    its own profile, at its own address, and both get the same contents. *)
Lemma interleaved_fetch lt tokA dA tokB dB c u1 u2 u3 r1 r2 r3 s j a j2 j3 :
  ready s lt c u1 u2 u3 ->
  account_ok JSON_parse r1 j a ->
  answer_ok JSON_parse r2 j2 ->
  answer_ok JSON_parse r3 j3 ->
  let sA := call (userProfile (VRef lt) tokA dA) s in
  let sB := call (userProfile (VRef lt) tokB dB) sA in
  let s' := deliver_all JSON_parse [r1; r1; r2; r2; r3; r3] sB in
  let profile :=
    <["email" := member j3 "email"]>
      (<["username" := member j2 "username"]> (account_profile j a (body r1))) in
  heap s' = heap s ++ [profile; profile] ∧
  pending s' = [] ∧
  dones (log s') = dones (log s) ++
    [Done dA VNull (VRef (length (heap s)));
     Done dB VNull (VRef (S (length (heap s))))].
Proof.
  intros [Hp Hs] (He1 & Hj & Ha & Hn) (He2 & Hj2 & Hn2) (He3 & Hj3 & Hn3).
  intros sA sB s' profile.
  destruct s as [h p lg]. cbn [heap pending log] in *. subst p.
  assert (Hs1 : ∀ x, strategy_at (h ++ [x]) lt c u1 u2 u3)
    by (intros x; by apply strategy_at_app).
  assert (HA : sA = State h [OnAccount (VRef lt) tokA dA] (lg ++ [Get c u1 tokA])).
  { unfold sA, call. by erewrite userProfile_run. }
  assert (HB : sB = State h [OnAccount (VRef lt) tokA dA; OnAccount (VRef lt) tokB dB]
                      ((lg ++ [Get c u1 tokA]) ++ [Get c u1 tokB])).
  { unfold sB, call. rewrite HA. by erewrite userProfile_run. }
  unfold s'. rewrite HB.
  erewrite deliver_all_step;
    [ | cbn [apply_closure]; eapply on_account_ok; cbn [heap pending log]; by eauto ].
  cbn [heap pending log]; rewrite <- ?app_comm_cons, ?app_nil_l.
  erewrite deliver_all_step;
    [ | cbn [apply_closure]; eapply on_account_ok; cbn [heap pending log]; by eauto ].
  cbn [heap pending log]; rewrite <- ?app_comm_cons, ?app_nil_l.
  rewrite <- snoc2.
  erewrite deliver_all_step;
    [ | cbn [apply_closure]; eapply on_username_ok; cbn [heap pending log]; by eauto ].
  rewrite <- ?app_comm_cons, ?app_nil_l.
  rewrite (length_app h [_]). cbn [length].
  replace (length h + 1) with (length (h ++ [<["username":=member j2 "username"]>
                                   (account_profile j a (body r1))]))
    by (rewrite length_app; cbn [length]; lia).
  rewrite snoc2.
  erewrite deliver_all_step;
    [ | cbn [apply_closure]; eapply on_username_ok; cbn [heap pending log]; by eauto ].
  rewrite <- ?app_comm_cons, ?app_nil_l.
  rewrite <- snoc2.
  erewrite deliver_all_step;
    [ | cbn [apply_closure]; eapply on_email_ok; cbn [heap pending log]; by eauto ].
  rewrite <- ?app_comm_cons, ?app_nil_l.
  rewrite (length_app h [_]). cbn [length].
  replace (length h + 1) with (length (h ++ [profile]))
    by (rewrite length_app; cbn [length]; lia).
  rewrite snoc2.
  erewrite deliver_all_step;
    [ | cbn [apply_closure]; eapply on_email_ok; cbn [heap pending log]; by eauto ].
  rewrite <- ?app_comm_cons, ?app_nil_l.
  rewrite <- snoc2.
  unfold deliver_all. cbn [foldl heap pending log].
  split; [done|]. split; [done|].
  unfold dones. rewrite !List.filter_app. cbn [List.filter is_done].
  rewrite !app_nil_r, <- app_assoc. cbn [app].
  rewrite length_app. cbn [length]. by replace (length h + 1) with (S (length h)) by lia.
Qed.

End Interleaved.

(** ** The constructor *)

Lemma truthy_not_nullish (v : value) : truthy v = true -> nullish v = false.
Proof. by destruct v as [|[]| |]. Qed.

Lemma length_write h v k x : length (write h v k x) = length h.
Proof. destruct v; try done. cbn [write]. by rewrite length_alter. Qed.

Lemma field_write_same h l k x :
  l < length h -> field (write h (VRef l) k x) l k = x.
Proof.
  intros Hl. unfold field, write. rewrite list_lookup_alter_eq.
  destruct (lookup_lt_is_Some_2 h l Hl) as [o ->]. cbn.
  by rewrite lookup_insert_eq.
Qed.

Lemma field_write_other h v k x l' k' :
  v ≠ VRef l' ∨ k ≠ k' -> field (write h v k x) l' k' = field h l' k'.
Proof.
  intros Hne. destruct v as [| |l|]; try reflexivity.
  unfold field, write. destruct (decide (l = l')) as [E|Hl]; [subst l'|].
  - rewrite list_lookup_alter_eq. destruct (h !! l) as [o|]; cbn; [|done].
    destruct Hne as [?|Hk]; [done|]. by rewrite lookup_insert_ne.
  - by rewrite list_lookup_alter_ne.
Qed.

Lemma field_snoc h o k :
  field (h ++ [o]) (length h) k = default VUndefined (o !! k).
Proof. apply field_middle. Qed.

Lemma field_beyond h l k : length h ≤ l -> field h l k = VUndefined.
Proof. intros Hl. unfold field. by rewrite lookup_ge_None_2. Qed.

Lemma bind_get_ok {B : Type} (v : value) (k : string) (f : value -> M B)
  (s : state) :
  nullish v = false -> (get_prop v k ≫= f) s = f (read (heap s) v k) s.
Proof. intros H. unfold mbind, M_bind, get_prop. by rewrite H. Qed.

Lemma bind_set_ok {B : Type} (v : value) (k : string) (x : value)
  (f : unit -> M B) (s : state) :
  nullish v = false ->
  (set_prop v k x ≫= f) s
  = f tt (State (write (heap s) v k x) (pending s) (log s)).
Proof. intros H. unfold mbind, M_bind, set_prop. by rewrite H. Qed.

Lemma bind_or_else_ret {B : Type} (x d : value) (f : value -> M B) (s : state) :
  (or_else x (mret d) ≫= f) s = f (resolve x d) s.
Proof. unfold or_else, resolve. by destruct (truthy x). Qed.

Lemma bind_inv {A B : Type} (m : M A) (f : A -> M B) (s s' : state) (b : B) :
  (m ≫= f) s = (inr b, s') ->
  ∃ a s1, m s = (inr a, s1) ∧ f a s1 = (inr b, s').
Proof.
  unfold mbind, M_bind. destruct (m s) as [[e|a] s1]; [done|]. by exists a, s1.
Qed.

Lemma bind_assoc {A B C : Type} (m : M A) (f : A -> M B) (g : B -> M C)
  (s : state) :
  ((m ≫= f) ≫= g) s = (m ≫= (fun x => f x ≫= g)) s.
Proof. unfold mbind, M_bind. by destruct (m s) as [[e|a] s1]. Qed.

Lemma bind_set_write {B : Type} (l : loc) (k : string) (x : value)
  (f : unit -> M B) (s : state) :
  (set_prop (VRef l) k x ≫= f) s
  = f tt (State (write (heap s) (VRef l) k x) (pending s) (log s)).
Proof. reflexivity. Qed.

Ltac forward H :=
  repeat first
    [ progress cbn [heap pending log] in H
    | rewrite bind_assoc in H
    | rewrite bind_ret in H
    | rewrite bind_get_ref in H
    | rewrite bind_or_else_ret in H
    | rewrite bind_set_write in H
    | rewrite bind_new_object in H
    | rewrite bind_get_ok in H by done
    | rewrite bind_set_ok in H by done ].

Ltac len := rewrite ?length_write, ?length_app; cbn [length]; lia.

Ltac neq :=
  first [ right; discriminate | left; discriminate | left; intros [=]; lia ].

Ltac fields :=
  repeat first
    [ rewrite field_write_same by len
    | rewrite field_write_other by neq
    | rewrite field_app_l by len
    | rewrite field_snoc ].

Section Construction.

Variable OAuth2Strategy_call : value -> value -> value -> M unit.

Hypothesis OAuth2Strategy_frame : ∀ l options verify s,
  changes_only (fun l' _ => l' = l) s
               (OAuth2Strategy_call (VRef l) options verify s).2.

Lemma or_else_new_inv (x hv : value) (s s3 : state) :
  or_else x (new_object ∅) s = (inr hv, s3) ->
  hv = resolve x (VRef (length (heap s))) ∧
  pending s3 = pending s ∧ log s3 = log s ∧
  heap s3 = (if truthy x then heap s else heap s ++ [∅]).
Proof.
  unfold or_else, resolve. destruct (truthy x); intros [= <- <-]; by cbn.
Qed.

Lemma resolve_truthy (x d : value) :
  truthy d = true -> truthy (resolve x d) = true.
Proof. unfold resolve. by destruct (truthy x) eqn:E. Qed.

(** The store just before the generic strategy is called. *)
Lemma defaults_effect lo lt verify h p lg (r : value + unit) (sf : state) :
  lo < length h -> lt = length h ->
  Strategy OAuth2Strategy_call (VRef lt) (VRef lo) verify
           (State (h ++ [∅]) p lg) = (r, sf) ->
  ∃ hP k,
    (OAuth2Strategy_call (VRef lt) (VRef lo) verify ≫= k) (State hP p lg)
    = (r, sf) ∧
    k = (fun _ =>
      set_prop (VRef lt) "name" (VStr "envato");;
      x ← get_prop (VRef lo) "userProfileURL";
      x ← or_else x
            (mret (VStr "https://api.envato.com/v1/market/private/user/account.json"));
      set_prop (VRef lt) "_userProfileURL" x;;
      x ← get_prop (VRef lo) "userProfileUsername";
      x ← or_else x
            (mret (VStr "https://api.envato.com/v1/market/private/user/username.json"));
      set_prop (VRef lt) "_userProfileUsername" x;;
      x ← get_prop (VRef lo) "userProfileEmail";
      x ← or_else x
            (mret (VStr "https://api.envato.com/v1/market/private/user/email.json"));
      set_prop (VRef lt) "_userProfileEmail" x) ∧
    let hv := field hP lo "customHeaders" in
    let agent := resolve (field h lo "userAgent") (VStr "passport-envato") in
    lt < length hP ∧
    field hP lo "authorizationURL"
    = resolve (field h lo "authorizationURL")
              (VStr "https://api.envato.com/authorization") ∧
    field hP lo "tokenURL"
    = resolve (field h lo "tokenURL") (VStr "https://api.envato.com/token") ∧
    hv = resolve (field h lo "customHeaders") (VRef (S lt)) ∧
    (truthy (field h lo "customHeaders") = false -> S lt < length hP) ∧
    (∀ lh, hv = VRef lh -> lh < length hP ->
           field hP lh "User-Agent" = resolve (field h lh "User-Agent") agent) ∧
    (∀ l k', l < lt -> ¬ defaults_footprint lo hv l k' ->
             field hP l k' = field h l k').
Proof.
  intros Hlo -> H.
  unfold Strategy in H. cbn [or_else truthy] in H. forward H.
  set (h1 := write (h ++ [∅]) _ _ _) in H.
  set (h2 := write h1 _ _ _) in H.
  unfold mbind at 1 in H. unfold M_bind at 1 in H.
  destruct (or_else _ _ _) as [[e|hv] s3] eqn:Hhv in H.
  { unfold or_else in Hhv. by destruct (truthy _). }
  apply or_else_new_inv in Hhv as (Ehv & Ep & El & Eh).
  destruct s3 as [h3 p3 lg3]. cbn [heap pending log] in *. subst p3 lg3.
  assert (Hl2 : length h2 = S (length h)) by (unfold h2, h1; len).
  assert (Hl3 : length h2 ≤ length h3).
  { rewrite Eh. destruct (truthy _); [done|]. len. }
  assert (Hf3 : ∀ l k', l < length h2 -> field h3 l k' = field h2 l k').
  { intros l k' Hl. rewrite Eh. destruct (truthy _); [done|]. by fields. }
  assert (Hch : field h2 lo "customHeaders" = field h lo "customHeaders").
  { unfold h2, h1. by fields. }
  rewrite Hch, Hl2 in Ehv.
  assert (Htv : truthy hv = true) by (rewrite Ehv; by apply resolve_truthy).
  assert (Hnv : nullish hv = false) by by apply truthy_not_nullish.
  forward H. set (h4 := write h3 _ _ _) in H.
  assert (Hv4 : field h4 lo "customHeaders" = hv) by (unfold h4; by fields).
  rewrite Hv4 in H. forward H.
  assert (Hl4 : length h4 = length h3) by (unfold h4; len).
  set (agent := resolve (field h lo "userAgent") (VStr "passport-envato")).
  assert (Hag : resolve (field h4 lo "userAgent") (VStr "passport-envato") = agent).
  { unfold agent, h4. rewrite field_write_other by neq.
    rewrite Hf3 by lia. unfold h2, h1. by fields. }
  assert (Hold : ∀ l k', l < S (length h) ->
            ¬ (l = lo ∧ (k' = "authorizationURL" ∨ k' = "tokenURL"
                         ∨ k' = "customHeaders")) ->
            field h4 l k' = field (h ++ [∅]) l k').
  { intros l k' Hl Hw. unfold h4.
    rewrite field_write_other by
      (destruct (decide (l = lo)) as [->|]; [right; intros <-; tauto | left; congruence]).
    rewrite Hf3 by lia. unfold h2, h1.
    rewrite !field_write_other by
      (destruct (decide (l = lo)) as [->|]; [right; intros <-; tauto | left; congruence]).
    done. }
  assert (Hua : ∀ lh, hv = VRef lh -> lh < length h4 ->
            read h4 hv "User-Agent" = field h lh "User-Agent").
  { intros lh -> Hlh. cbn [read].
    destruct (decide (lh < S (length h))) as [Hin|Hout].
    - rewrite Hold by (done || (intros [_ [?|[?|?]]]; discriminate)).
      destruct (decide (lh < length h)); [by fields|].
      replace lh with (length h) by lia. rewrite field_snoc.
      by rewrite field_beyond.
    - rewrite (field_beyond h) by lia.
      unfold h4. rewrite field_write_other by neq.
      revert Hlh. rewrite Hl4, Eh. destruct (truthy _); [lia|].
      rewrite length_app. cbn [length]. intros Hlh.
      replace lh with (length h2) by lia. by rewrite field_snoc. }
  assert (Ha4 : field h4 lo "authorizationURL"
                = resolve (field h lo "authorizationURL")
                          (VStr "https://api.envato.com/authorization")).
  { unfold h4. rewrite field_write_other by neq. rewrite Hf3 by lia.
    unfold h2, h1. by fields. }
  assert (Ht4 : field h4 lo "tokenURL"
                = resolve (field h lo "tokenURL")
                          (VStr "https://api.envato.com/token")).
  { unfold h4. rewrite field_write_other by neq. rewrite Hf3 by lia.
    unfold h2, h1. by fields. }
  assert (Hfresh : truthy (field h lo "customHeaders") = false ->
                   S (length h) < length h4).
  { intros Hno. rewrite Hl4, Eh, Hch, Hno. len. }
  destruct (truthy (read h4 hv "User-Agent")) eqn:Eua; cbn [negb] in H.
  - rewrite bind_ret in H. exists h4. eexists. split; [exact H|].
    split; [reflexivity|]. cbn zeta. rewrite Hv4.
    split_and!; try done.
    + lia.
    + intros lh Elh Hlh. rewrite <- (Hua lh Elh Hlh).
      unfold resolve. rewrite Eua. by rewrite Elh.
    + intros l k' Hl Hw. rewrite Hold by (lia || (intros ?; apply Hw; by left)).
      by fields.
  - forward H. rewrite Hv4 in H. forward H. rewrite Hag in H.
    set (h5 := write h4 hv "User-Agent" agent) in H.
    exists h5. eexists. split; [exact H|]. split; [reflexivity|]. cbn zeta.
    assert (Hv5 : field h5 lo "customHeaders" = hv).
    { unfold h5. by rewrite field_write_other by neq. }
    assert (Hl5 : length h5 = length h4) by (unfold h5; len).
    rewrite Hv5. split_and!; try done.
    + lia.
    + unfold h5. by rewrite field_write_other by neq.
    + unfold h5. by rewrite field_write_other by neq.
    + by rewrite Hl5.
    + intros lh Elh Hlh. rewrite <- (Hua lh Elh) by lia.
      unfold resolve. rewrite Eua. unfold h5. rewrite Elh.
      rewrite field_write_same by lia. done.
    + intros l k' Hl Hw. unfold h5.
      rewrite field_write_other.
      * rewrite Hold by (lia || (intros ?; apply Hw; by left)). by fields.
      * destruct (decide (k' = "User-Agent")) as [->|]; [|by right].
        left. intros ->. apply Hw. by right.
Qed.

(** The store after construction. *)
Lemma new_Strategy_effect lo verify s this s' :
  lo < length (heap s) ->
  new_Strategy OAuth2Strategy_call (VRef lo) verify s = (inr this, s') ->
  let h := heap s in
  let h' := heap s' in
  let lt := length h in
  let hv := field h' lo "customHeaders" in
  let agent := resolve (field h lo "userAgent") (VStr "passport-envato") in
  this = VRef lt ∧ lt < length h' ∧
  field h' lo "authorizationURL"
  = resolve (field h lo "authorizationURL")
            (VStr "https://api.envato.com/authorization") ∧
  field h' lo "tokenURL"
  = resolve (field h lo "tokenURL") (VStr "https://api.envato.com/token") ∧
  hv = resolve (field h lo "customHeaders") (VRef (S lt)) ∧
  (∀ lh, hv = VRef lh ->
         lh < lt ∨ truthy (field h lo "customHeaders") = false ->
         field h' lh "User-Agent" = resolve (field h lh "User-Agent") agent) ∧
  field h' lt "name" = VStr "envato" ∧
  field h' lt "_userProfileURL"
  = resolve (field h lo "userProfileURL")
      (VStr "https://api.envato.com/v1/market/private/user/account.json") ∧
  field h' lt "_userProfileUsername"
  = resolve (field h lo "userProfileUsername")
      (VStr "https://api.envato.com/v1/market/private/user/username.json") ∧
  field h' lt "_userProfileEmail"
  = resolve (field h lo "userProfileEmail")
      (VStr "https://api.envato.com/v1/market/private/user/email.json") ∧
  (∀ l k, l < lt -> ¬ defaults_footprint lo hv l k ->
          field h' l k = field h l k).
Proof.
  intros Hlo H. destruct s as [h p lg]. cbn [heap] in *.
  unfold new_Strategy in H. rewrite bind_new_object in H.
  cbn [heap pending log] in H.
  apply bind_inv in H as ([] & sf & H & Hret).
  injection Hret as <- <-.
  apply (defaults_effect lo (length h)) in H as (hP & k & H & -> & HP); try done.
  cbv zeta in HP.
  destruct HP as (Hlt & Ha & Ht & Hv & Hfresh & Hua & Hframe).
  apply bind_inv in H as ([] & sE & Heng & H).
  destruct (OAuth2Strategy_frame (length h) (VRef lo) verify (State hP p lg))
    as [Hlen Hfr].
  rewrite Heng in Hlen, Hfr. cbn [snd heap] in Hlen, Hfr.
  destruct sE as [hE pE lgE]. cbn [heap] in *.
  assert (Hkeep : ∀ l k, l < length hP -> l ≠ length h ->
                         field hE l k = field hP l k).
  { intros l k Hl Hne. by apply Hfr. }
  forward H. unfold set_prop in H. cbn [nullish heap pending log] in H.
  apply (f_equal snd) in H. cbn [snd] in H. subst sf. cbv zeta. cbn [heap].
  set (hF := write _ _ _ _).
  assert (Hout : ∀ l k, l ≠ length h -> field hF l k = field hE l k).
  { intros l k Hne. unfold hF. by rewrite !field_write_other by (left; congruence). }
  assert (Hvf : field hF lo "customHeaders" = field hP lo "customHeaders").
  { rewrite Hout by lia. apply Hkeep; lia. }
  assert (Hopt : ∀ k, k ≠ "authorizationURL" -> k ≠ "tokenURL" ->
                      k ≠ "customHeaders" -> k ≠ "User-Agent" ->
                      field hE lo k = field h lo k).
  { intros k ? ? ? ?. rewrite Hkeep by lia. apply Hframe; [done|].
    intros [[_ [?|[?|?]]]|[? _]]; done. }
  rewrite Hvf. split_and!; try done.
  - unfold hF. len.
  - rewrite Hout by lia. by rewrite Hkeep by lia.
  - rewrite Hout by lia. by rewrite Hkeep by lia.
  - intros lh Elh Hlh.
    assert (lh < length hP ∧ lh ≠ length h) as [? ?].
    { destruct Hlh as [?|Hno]; [lia|]. specialize (Hfresh Hno).
      rewrite Hv in Elh. unfold resolve in Elh. rewrite Hno in Elh.
      injection Elh as <-. lia. }
    rewrite Hout by done. rewrite Hkeep by done. by apply Hua.
  - unfold hF. by fields.
  - unfold hF. fields. by rewrite Hopt.
  - unfold hF. fields. by rewrite Hopt.
  - unfold hF. fields. by rewrite Hopt.
  - intros l k Hl Hw. rewrite Hout by lia. rewrite Hkeep by lia.
    by apply Hframe.
Qed.

(** *** The claims about the constructor *)

(** C5.  When construction succeeds, every endpoint option that the
    configuration leaves out is resolved to its fixed address: the
    authorization and token URLs in the options handed to the generic
    strategy, the three profile URLs on the new instance. *)
Theorem construction_defaults lo verify s this s' :
  lo < length (heap s) ->
  new_Strategy OAuth2Strategy_call (VRef lo) verify s = (inr this, s') ->
  let lt := length (heap s) in
  let missing k := field (heap s) lo k = VUndefined in
  this = VRef lt ∧
  (missing "authorizationURL" ->
   field (heap s') lo "authorizationURL"
   = VStr "https://api.envato.com/authorization") ∧
  (missing "tokenURL" ->
   field (heap s') lo "tokenURL" = VStr "https://api.envato.com/token") ∧
  (missing "userProfileURL" ->
   field (heap s') lt "_userProfileURL"
   = VStr "https://api.envato.com/v1/market/private/user/account.json") ∧
  (missing "userProfileUsername" ->
   field (heap s') lt "_userProfileUsername"
   = VStr "https://api.envato.com/v1/market/private/user/username.json") ∧
  (missing "userProfileEmail" ->
   field (heap s') lt "_userProfileEmail"
   = VStr "https://api.envato.com/v1/market/private/user/email.json").
Proof.
  intros Hlo H lt missing.
  destruct (new_Strategy_effect lo verify s this s' Hlo H)
    as (Ht & _ & Ha & Hk & _ & _ & _ & H1 & H2 & H3 & _).
  unfold missing. split_and!; [done|intros E..].
  - by rewrite Ha, E.
  - by rewrite Hk, E.
  - unfold lt. by rewrite H1, E.
  - unfold lt. by rewrite H2, E.
  - unfold lt. by rewrite H3, E.
Qed.

(** C6, as amended.  After a successful construction the header map is the
    one the configuration gave, or a new one when it gave none.  Its
    [User-Agent] is the value it already had when that was non-empty;
    otherwise the [userAgent] option when that is non-empty; otherwise
    ["passport-envato"]. *)
Theorem user_agent_header lo verify s this s' :
  lo < length (heap s) ->
  new_Strategy OAuth2Strategy_call (VRef lo) verify s = (inr this, s') ->
  let h := heap s in
  let h' := heap s' in
  let agent := field h lo "userAgent" in
  let fallback := if truthy agent then agent else VStr "passport-envato" in
  (∀ lh, field h lo "customHeaders" = VRef lh -> lh < length h ->
         field h' lo "customHeaders" = VRef lh ∧
         field h' lh "User-Agent"
         = (if truthy (field h lh "User-Agent") then field h lh "User-Agent"
            else fallback)) ∧
  (truthy (field h lo "customHeaders") = false ->
   ∃ lh, field h' lo "customHeaders" = VRef lh ∧ h !! lh = None ∧
         field h' lh "User-Agent" = fallback).
Proof.
  intros Hlo H h h' agent fallback.
  destruct (new_Strategy_effect lo verify s this s' Hlo H)
    as (_ & _ & _ & _ & Hv & Hua & _).
  fold h h' in Hv, Hua. split.
  - intros lh Eh Hlh. rewrite Eh in Hv. unfold resolve in Hv. cbn [truthy] in Hv.
    split; [done|]. by rewrite (Hua lh Hv) by (by left).
  - intros Hno. unfold resolve in Hv. rewrite Hno in Hv.
    exists (S (length h)). split; [done|]. split.
    + apply lookup_ge_None_2. lia.
    + rewrite (Hua _ Hv) by (by right).
      rewrite (field_beyond h) by lia. done.
Qed.

End Construction.

(** ** The stand-in for the generic strategy keeps to the instance *)

Lemma Host_frame l options verify s :
  changes_only (fun l' _ => l' = l) s
               (Host.OAuth2Strategy_call (VRef l) options verify s).2.
Proof.
  assert (Hrefl : changes_only (fun l' _ => l' = l) s s) by (by split).
  unfold Host.OAuth2Strategy_call.
  destruct (nullish options) eqn:Hn.
  { unfold mbind, M_bind, get_prop. by rewrite Hn. }
  rewrite bind_get_ok by done.
  destruct (truthy (read (heap s) options "clientID")).
  2:{ unfold mbind, M_bind, throw. done. }
  rewrite bind_ret. rewrite !bind_get_ok by done.
  rewrite bind_new_object. rewrite !bind_set_write.
  cbn [heap pending log]. rewrite bind_get_ok by done.
  unfold set_prop. cbn [nullish heap pending log snd].
  split; cbn [heap].
  - len.
  - intros l' k Hl Hne. by fields.
Qed.

(** ** Construction, then use *)


(** * The claims on the worked configuration *)

Lemma example_strategy_built :
  new_Strategy Host.OAuth2Strategy_call (VRef 0) (VRef 1) example_start
  = (inr (VRef 3), example_strategy).
Proof. by vm_compute. Qed.

Lemma example_strategy_ready :
  ready example_strategy 3 (VRef 5)
    (VStr "https://api.envato.com/v1/market/private/user/account.json")
    (VStr "https://api.envato.com/v1/market/private/user/username.json")
    (VStr "https://api.envato.com/v1/market/private/user/email.json").
Proof.
  unfold ready, strategy_at. split_and!; try by vm_compute.
  vm_compute. lia.
Qed.

(** The account and email replies of the specification's example succeed. *)
Lemma example_account_ok :
  account_ok Reader.JSON_parse (Reply VNull account_body)
             account_json account_member.
Proof. unfold account_ok. split_and!; by vm_compute. Qed.

Lemma example_email_ok :
  answer_ok Reader.JSON_parse (Reply VNull email_body) email_json.
Proof. unfold answer_ok. split_and!; by vm_compute. Qed.

(** C1 on the worked configuration: the reader parses the three bodies to the
    JSON they denote, and the profile is returned. *)
Lemma fetch_example_profile_witness :
  Reader.JSON_parse account_body = inr account_json ∧
  Reader.JSON_parse username_body = inr username_json ∧
  Reader.JSON_parse email_body = inr email_json ∧
  let s' := fetchProfile Reader.JSON_parse (VRef 3) (VStr "token") (VRef 2)
              [Reply VNull account_body; Reply VNull username_body;
               Reply VNull email_body] example_strategy in
  log s' = log example_strategy ++
    [Get (VRef 5)
         (VStr "https://api.envato.com/v1/market/private/user/account.json")
         (VStr "token");
     Get (VRef 5)
         (VStr "https://api.envato.com/v1/market/private/user/username.json")
         (VStr "token");
     Get (VRef 5)
         (VStr "https://api.envato.com/v1/market/private/user/email.json")
         (VStr "token");
     Done (VRef 2) VNull (VRef (length (heap example_strategy)))] ∧
  heap example_strategy !! length (heap example_strategy) = None ∧
  heap s' !! length (heap example_strategy) = Some expected_profile.
Proof.
  assert (P1 : Reader.JSON_parse account_body = inr account_json)
    by (vm_compute; reflexivity).
  assert (P2 : Reader.JSON_parse username_body = inr username_json)
    by (vm_compute; reflexivity).
  assert (P3 : Reader.JSON_parse email_body = inr email_json)
    by (vm_compute; reflexivity).
  split; [exact P1|]. split; [exact P2|]. split; [exact P3|].
  exact (fetch_example_profile Reader.JSON_parse 3 (VStr "token") (VRef 2)
           (VRef 5) _ _ _ VNull VNull VNull [] example_strategy
           example_strategy_ready eq_refl eq_refl eq_refl P1 P2 P3).
Defined.

(** C2 on the worked configuration: the username request fails. *)
Lemma transport_error_aborts_witness :
  let s' := fetchProfile Reader.JSON_parse (VRef 3) (VStr "token") (VRef 2)
              [Reply VNull account_body;
               Reply (VStr "ECONNRESET") EmptyString;
               Reply VNull email_body] example_strategy in
  pending s' = [] ∧
  log s' = log example_strategy ++
    [Get (VRef 5)
         (VStr "https://api.envato.com/v1/market/private/user/account.json")
         (VStr "token");
     Get (VRef 5)
         (VStr "https://api.envato.com/v1/market/private/user/username.json")
         (VStr "token");
     Done (VRef 2)
          (VError InternalOAuthError "failed to fetch username"
                  (VStr "ECONNRESET")) VUndefined].
Proof.
  exact (proj1 (proj2
    (transport_error_aborts Reader.JSON_parse 3 (VStr "token") (VRef 2)
       (VRef 5) _ _ _ (Reply VNull account_body)
       (Reply (VStr "ECONNRESET") EmptyString) (Reply VNull email_body)
       [Reply VNull email_body] example_strategy example_strategy_ready))
    account_json account_member example_account_ok eq_refl).
Defined.

(** C3 on the worked configuration: the account body is not JSON. *)
Lemma malformed_body_aborts_witness :
  Reader.JSON_parse "not json" = inl "Unexpected token in JSON" ∧
  let s' := fetchProfile Reader.JSON_parse (VRef 3) (VStr "token") (VRef 2)
              [Reply VNull "not json"; Reply VNull username_body;
               Reply VNull email_body] example_strategy in
  pending s' = [] ∧
  log s' = log example_strategy ++
    [Get (VRef 5)
         (VStr "https://api.envato.com/v1/market/private/user/account.json")
         (VStr "token");
     Done (VRef 2) (VError SyntaxError "Unexpected token in JSON" VUndefined)
          VUndefined].
Proof.
  assert (P : Reader.JSON_parse "not json" = inl "Unexpected token in JSON")
    by (vm_compute; reflexivity).
  split; [exact P|].
  exact (proj1
    (malformed_body_aborts Reader.JSON_parse 3 (VStr "token") (VRef 2)
       (VRef 5) _ _ _ (Reply VNull "not json") (Reply VNull username_body)
       (Reply VNull email_body)
       [Reply VNull username_body; Reply VNull email_body]
       example_strategy "Unexpected token in JSON" example_strategy_ready)
    eq_refl P).
Defined.

(** C9, as stated, fails: an [account] that is a string is not an object,
    yet nothing throws, [done] is not called, and the username request is
    issued. *)
Lemma string_account_counterexample :
  let text := Reader.dq "{'account':'x'}" in
  let s' := fetchProfile Reader.JSON_parse (VRef 3) (VStr "token") (VRef 2)
              [Reply VNull text] example_strategy in
  Reader.JSON_parse text = inr (JObj {[ "account" := JStr "x" ]}) ∧
  dones (log s') = [] ∧
  gets (log s') =
    [Get (VRef 5)
         (VStr "https://api.envato.com/v1/market/private/user/account.json")
         (VStr "token");
     Get (VRef 5)
         (VStr "https://api.envato.com/v1/market/private/user/username.json")
         (VStr "token")].
Proof. vm_compute. done. Qed.

(** C9, as amended, on the worked configuration: the body is [{}]. *)
Lemma missing_account_throws_witness :
  Reader.JSON_parse "{}" = inr (JObj ∅) ∧
  let s' := fetchProfile Reader.JSON_parse (VRef 3) (VStr "token") (VRef 2)
              [Reply VNull "{}"; Reply VNull username_body;
               Reply VNull email_body] example_strategy in
  pending s' = [] ∧
  ∃ msg, log s' = log example_strategy ++
    [Get (VRef 5)
         (VStr "https://api.envato.com/v1/market/private/user/account.json")
         (VStr "token");
     Done (VRef 2) (VError TypeError msg VUndefined) VUndefined].
Proof.
  assert (P : Reader.JSON_parse "{}" = inr (JObj ∅)) by (vm_compute; reflexivity).
  split; [exact P|].
  exact (missing_account_throws Reader.JSON_parse 3 (VStr "token") (VRef 2)
           (VRef 5) _ _ _ (Reply VNull "{}")
           [Reply VNull username_body; Reply VNull email_body]
           example_strategy (JObj ∅) example_strategy_ready eq_refl P
           (or_intror (or_introl eq_refl))).
Defined.

(** C10, as stated, fails: [null] is valid JSON without a [username], and
    the invocation fails with a [TypeError] before the email request. *)
Lemma null_username_counterexample :
  let s' := fetchProfile Reader.JSON_parse (VRef 3) (VStr "token") (VRef 2)
              [Reply VNull account_body; Reply VNull "null";
               Reply VNull email_body] example_strategy in
  Reader.JSON_parse "null" = inr JNull ∧
  log s' =
    [Get (VRef 5)
         (VStr "https://api.envato.com/v1/market/private/user/account.json")
         (VStr "token");
     Get (VRef 5)
         (VStr "https://api.envato.com/v1/market/private/user/username.json")
         (VStr "token");
     Done (VRef 2)
          (VError TypeError "Cannot read property 'username'" VUndefined)
          VUndefined].
Proof. vm_compute. done. Qed.

(** C10, as amended, on the worked configuration: the username body is
    [{}]. *)
Lemma missing_member_is_undefined_witness :
  answer_ok Reader.JSON_parse (Reply VNull "{}") (JObj ∅) ∧
  let s' := fetchProfile Reader.JSON_parse (VRef 3) (VStr "token") (VRef 2)
              [Reply VNull account_body; Reply VNull "{}";
               Reply VNull email_body] example_strategy in
  let profile := length (heap example_strategy) in
  log s' = log example_strategy ++
    [Get (VRef 5)
         (VStr "https://api.envato.com/v1/market/private/user/account.json")
         (VStr "token");
     Get (VRef 5)
         (VStr "https://api.envato.com/v1/market/private/user/username.json")
         (VStr "token");
     Get (VRef 5)
         (VStr "https://api.envato.com/v1/market/private/user/email.json")
         (VStr "token");
     Done (VRef 2) VNull (VRef profile)] ∧
  field (heap s') profile "username" = VUndefined.
Proof.
  assert (A : answer_ok Reader.JSON_parse (Reply VNull "{}") (JObj ∅)).
  { unfold answer_ok. split; [reflexivity|].
    split; [vm_compute; reflexivity | discriminate]. }
  split; [exact A|].
  destruct (missing_member_is_undefined Reader.JSON_parse 3 (VStr "token")
              (VRef 2) (VRef 5) _ _ _ (Reply VNull account_body)
              (Reply VNull "{}") (Reply VNull email_body) []
              example_strategy account_json account_member (JObj ∅) email_json
              example_strategy_ready example_account_ok A example_email_ok)
    as (Hlog & _ & _ & Hu & _).
  split; [exact Hlog | exact (Hu eq_refl)].
Defined.

(** C5 on the worked configuration, which leaves every endpoint out. *)
Lemma construction_defaults_witness :
  field (heap example_strategy) 0 "authorizationURL"
  = VStr "https://api.envato.com/authorization" ∧
  field (heap example_strategy) 0 "tokenURL"
  = VStr "https://api.envato.com/token" ∧
  field (heap example_strategy) 3 "_userProfileURL"
  = VStr "https://api.envato.com/v1/market/private/user/account.json" ∧
  field (heap example_strategy) 3 "_userProfileUsername"
  = VStr "https://api.envato.com/v1/market/private/user/username.json" ∧
  field (heap example_strategy) 3 "_userProfileEmail"
  = VStr "https://api.envato.com/v1/market/private/user/email.json".
Proof.
  destruct (construction_defaults Host.OAuth2Strategy_call Host_frame
              0 (VRef 1) example_start (VRef 3) example_strategy)
    as (_ & H1 & H2 & H3 & H4 & H5).
  - vm_compute. lia.
  - exact example_strategy_built.
  - split; [apply H1; vm_compute; reflexivity|].
    split; [apply H2; vm_compute; reflexivity|].
    split; [apply H3; vm_compute; reflexivity|].
    split; [apply H4; vm_compute; reflexivity|].
    apply H5; vm_compute; reflexivity.
Defined.

(** C6, as stated, fails: a header map with an empty [User-Agent] has the
    header, and the constructor replaces it. *)
Lemma empty_agent_counterexample :
  let s' := (new_Strategy Host.OAuth2Strategy_call (VRef 0) (VRef 2)
                          empty_agent_start).2 in
  (heap empty_agent_start !! 1) ≫= (.!! "User-Agent") = Some (VStr EmptyString) ∧
  field (heap s') 0 "customHeaders" = VRef 1 ∧
  (heap s' !! 1) ≫= (.!! "User-Agent") = Some (VStr "passport-envato") ∧
  heap s' !! 1 ≠ heap empty_agent_start !! 1.
Proof.
  split_and!; try (vm_compute; reflexivity).
  intros E. apply (f_equal (fun o => o ≫= (.!! "User-Agent"))) in E.
  vm_compute in E. discriminate E.
Qed.

(** C6, as amended, on the worked configuration: no header map is given,
    and [userAgent] is ["myapp.com"]. *)
Lemma user_agent_header_witness :
  ∃ lh, field (heap example_strategy) 0 "customHeaders" = VRef lh ∧
        heap example_start !! lh = None ∧
        field (heap example_strategy) lh "User-Agent" = VStr "myapp.com".
Proof.
  destruct (user_agent_header Host.OAuth2Strategy_call Host_frame
              0 (VRef 1) example_start (VRef 3) example_strategy)
    as [_ H].
  - vm_compute. lia.
  - exact example_strategy_built.
  - apply H. vm_compute. reflexivity.
Defined.



(** * Further properties of [userProfile] *)

Section Further.

Variable JSON_parse : string -> string + json.

(** ** What a returned profile holds *)

(** X3.  When the three requests succeed, whatever their bodies hold, the
    profile has exactly twelve properties: the provider tag, the seven
    properties read from [json.account] (a missing one reads as
    [undefined]), [username] from the second body, [email] from the third,
    and the text and parsed JSON of the first.  No other member of any
    response becomes a property of the profile. *)
Theorem profile_contents lt tok d c u1 u2 u3 r1 r2 r3 rest s j a j2 j3 :
  ready s lt c u1 u2 u3 ->
  account_ok JSON_parse r1 j a ->
  answer_ok JSON_parse r2 j2 -> answer_ok JSON_parse r3 j3 ->
  let s' := fetchProfile JSON_parse (VRef lt) tok d (r1 :: r2 :: r3 :: rest) s in
  ∃ o, heap s' !! length (heap s) = Some o ∧
       dom o = list_to_set profile_fields ∧
       o !! "provider" = Some (VStr "envato") ∧
       Forall (fun f => o !! f = Some (member a f)) account_fields ∧
       o !! "username" = Some (member j2 "username") ∧
       o !! "email" = Some (member j3 "email") ∧
       o !! "_raw" = Some (VStr (body r1)) ∧
       o !! "_json" = Some (VData j).
Proof.
  intros Hr H1 H2 H3 s'. unfold s'.
  erewrite path_fetched by done. cbn [heap].
  eexists. split; [by rewrite list_lookup_middle|].
  unfold account_profile, account_fields, profile_fields.
  split.
  { rewrite !dom_insert_L, dom_singleton_L. cbn [list_to_set foldr].
    set_solver. }
  split; [by vm_compute|].
  split; [repeat (apply Forall_cons; split); [..|apply Forall_nil]; by vm_compute|].
  split_and!; by vm_compute.
Qed.

(** ** Bodies of the wrong shape *)

Lemma fetch_after_account lt tok d c u1 u2 u3 r1 s j a :
  ready s lt c u1 u2 u3 ->
  account_ok JSON_parse r1 j a ->
  fetchProfile JSON_parse (VRef lt) tok d [r1] s
  = State (heap s ++ [account_profile j a (body r1)])
          [OnUsername (VRef lt) tok d (VRef (length (heap s)))]
          (log s ++ [Get c u1 tok; Get c u2 tok]).
Proof.
  intros Hr (He & Hj & Ha & Hn).
  rewrite (fetchProfile_start JSON_parse _ _ _ _ _ _ _ _ _ Hr).
  destruct s as [h p lg]. destruct Hr as [Hp Hs]. cbn [heap pending log] in *.
  erewrite deliver_all_step;
    [ | cbn [apply_closure]; eapply on_account_ok; cbn [heap pending log];
        by eauto ].
  cbn [heap pending log]. rewrite app_nil_l, <- app_assoc. reflexivity.
Qed.

(** X4.  An [account] member that is present but is a string, a number, a
    boolean or an array is not an error: nothing throws, [done] is not
    called, the username request is issued, and the seven account
    properties of the profile are all [undefined]. *)
Theorem non_object_account lt tok d c u1 u2 u3 r1 s j a :
  ready s lt c u1 u2 u3 ->
  truthy (err r1) = false -> JSON_parse (body r1) = inr j ->
  member j "account" = VData a -> a ≠ JNull -> (∀ m, a ≠ JObj m) ->
  let s' := fetchProfile JSON_parse (VRef lt) tok d [r1] s in
  let profile := length (heap s) in
  log s' = log s ++ [Get c u1 tok; Get c u2 tok] ∧
  pending s' = [OnUsername (VRef lt) tok d (VRef profile)] ∧
  field (heap s') profile "provider" = VStr "envato" ∧
  Forall (fun f => field (heap s') profile f = VUndefined) account_fields.
Proof.
  intros Hr He Hj Ha Hn Hobj s' profile. unfold s', profile.
  rewrite (fetch_after_account lt tok d c u1 u2 u3 r1 s j a Hr) by done.
  cbn [heap pending log]. split; [done|]. split; [done|].
  unfold account_fields. rewrite Forall_forall.
  assert (Hm : ∀ f, member a f = VUndefined).
  { intros f. destruct a; try done. by destruct (Hobj members). }
  unfold account_profile. rewrite !Hm.
  split; [rewrite field_middle; by vm_compute|].
  intros f Hf. rewrite field_middle.
  repeat (apply elem_of_cons in Hf as [->|Hf]; [by vm_compute|]).
  by apply elem_of_nil in Hf.
Qed.

(** X5.  A username or email body that is the JSON text [null] parses, but
    reading its property throws: [done] receives a [TypeError] and no
    profile, and after a [null] username body the email request is not
    issued. *)
Theorem null_body_is_type_error lt tok d c u1 u2 u3 r1 r2 r3 rest s j a :
  ready s lt c u1 u2 u3 ->
  account_ok JSON_parse r1 j a ->
  (truthy (err r2) = false -> JSON_parse (body r2) = inr JNull ->
   let s' := fetchProfile JSON_parse (VRef lt) tok d (r1 :: r2 :: rest) s in
   pending s' = [] ∧
   ∃ msg, log s' = log s ++
     [Get c u1 tok; Get c u2 tok;
      Done d (VError TypeError msg VUndefined) VUndefined]) ∧
  (∀ j2, answer_ok JSON_parse r2 j2 ->
   truthy (err r3) = false -> JSON_parse (body r3) = inr JNull ->
   let s' := fetchProfile JSON_parse (VRef lt) tok d (r1 :: r2 :: r3 :: rest) s in
   pending s' = [] ∧
   ∃ msg, log s' = log s ++
     [Get c u1 tok; Get c u2 tok; Get c u3 tok;
      Done d (VError TypeError msg VUndefined) VUndefined]).
Proof.
  intros Hr Ha. split.
  - intros He Hp s'. unfold s'. erewrite path_username_null by done.
    split; [done|]. by eexists.
  - intros j2 H2 He Hp s'. unfold s'. erewrite path_email_null by done.
    split; [done|]. by eexists.
Qed.

(** ** An instance without client *)

(** X6.  On an instance whose [_oauth2] is missing or [null], [userProfile]
    throws a [TypeError] to its caller: no request is issued, nothing is
    queued, and [done] is not called. *)
Theorem userProfile_without_client lt tok d s :
  nullish (field (heap s) lt "_oauth2") = true ->
  ∃ msg,
    call (userProfile (VRef lt) tok d) s
    = State (heap s) (pending s)
            (log s ++ [Uncaught (VError TypeError msg VUndefined)]).
Proof.
  intros Hn. eexists. unfold call, userProfile.
  rewrite !bind_get_ref. unfold oauth2_get. by rewrite Hn.
Qed.

End Further.

(** * The program and the host's [done] *)

(** ** The outcome of one invocation when [done] returns *)

Section Outcome.

Variable JSON_parse : string -> string + json.

Lemma account_good_ok r j a :
  account_ok JSON_parse r j a -> account_good JSON_parse r = true.
Proof.
  intros (E & P & A & N). unfold account_good. rewrite E, P, A.
  by destruct a.
Qed.

Lemma answer_good_ok r j :
  answer_ok JSON_parse r j -> answer_good JSON_parse r = true.
Proof.
  intros (E & P & N). unfold answer_good. rewrite E, P. by destruct j.
Qed.

(** The two tests say what [account_ok] and [answer_ok] say. *)
Lemma account_good_iff r :
  account_good JSON_parse r = true <-> ∃ j a, account_ok JSON_parse r j a.
Proof.
  split; [|intros (j & a & H); by apply account_good_ok with j a].
  unfold account_good, account_ok.
  destruct (truthy (err r)); [done|].
  destruct (JSON_parse (body r)) as [msg|j]; [done|]. cbn [negb andb].
  destruct (member_cases j "account") as [U|[a A]].
  - by rewrite U.
  - rewrite A. intros Hn. exists j, a. split_and!; try done.
    intros ->. done.
Qed.

Lemma answer_good_iff r :
  answer_good JSON_parse r = true <-> ∃ j, answer_ok JSON_parse r j.
Proof.
  split; [|intros (j & H); by apply answer_good_ok with j].
  unfold answer_good, answer_ok.
  destruct (truthy (err r)); [done|].
  destruct (JSON_parse (body r)) as [msg|j]; [done|]. cbn [negb andb].
  intros Hn. exists j. split_and!; try done. intros ->. done.
Qed.

(** The log of one invocation, from the replies. *)
Lemma fetchProfile_trace lt tok d c u1 u2 u3 r1 r2 r3 rest s :
  ready s lt c u1 u2 u3 ->
  let k := requests_issued JSON_parse r1 r2 in
  let o := fetchProfile JSON_parse (VRef lt) tok d (r1 :: r2 :: r3 :: rest) s in
  ∃ e p,
    log o = (log s ++ take k [Get c u1 tok; Get c u2 tok; Get c u3 tok])
            ++ [Done d e p] ∧
    pending o = [] ∧
    ((k = 3 ∧ answer_good JSON_parse r3 = true ∧
      e = VNull ∧ p = VRef (length (heap s)))
     ∨ ((k = 3 -> answer_good JSON_parse r3 = false) ∧
        p = VUndefined ∧
        stops_with JSON_parse k (reply_at k r1 r2 r3) e)).
Proof.
  intros Hr k o. unfold k, o, requests_issued.
  destruct (truthy (err r1)) eqn:E1.
  { unfold account_good. rewrite E1. cbn [negb andb take reply_at].
    eexists _, VUndefined. erewrite path_account_failed by done.
    cbn [log pending]. split_and!; [by rewrite <- app_assoc|done|].
    right. split_and!; [done|done|]. left. by rewrite E1. }
  destruct (JSON_parse (body r1)) as [m1|j1] eqn:P1.
  { unfold account_good. rewrite E1, P1. cbn [negb andb take reply_at].
    eexists _, VUndefined. erewrite path_account_malformed by done.
    cbn [log pending]. split_and!; [by rewrite <- app_assoc|done|].
    right. split_and!; [done|done|]. right. left. rewrite E1.
    split; [done|]. by eexists. }
  assert (Hacc : (j1 = JNull ∨ nullish (member j1 "account") = true) ∨
                 ∃ a, account_ok JSON_parse r1 j1 a).
  { destruct (member_cases j1 "account") as [U|[a A]].
    - left. right. by rewrite U.
    - destruct (json_null_dec a) as [->|Na].
      + left. right. by rewrite A.
      + right. by exists a. }
  destruct Hacc as [Hno|[a Hacc]].
  { assert (Hbad : account_good JSON_parse r1 = false).
    { unfold account_good. rewrite E1, P1. cbn [negb andb].
      destruct Hno as [-> | ->]; done. }
    rewrite Hbad. cbn [take reply_at].
    destruct (path_account_no_account JSON_parse lt tok d c u1 u2 u3 r1
                (r2 :: r3 :: rest) j1 E1 P1 Hno) as [msg Hm].
    eexists _, VUndefined. rewrite (Hm s Hr).
    cbn [log pending]. split_and!; [by rewrite <- app_assoc|done|].
    right. split_and!; [done|done|]. right. right. rewrite E1.
    split; [done|]. by eexists _, _. }
  rewrite (account_good_ok _ _ _ Hacc).
  destruct (truthy (err r2)) eqn:E2.
  { unfold answer_good. rewrite E2. cbn [negb andb take reply_at].
    eexists _, VUndefined. erewrite path_username_failed by done.
    cbn [log pending]. split_and!; [by rewrite <- app_assoc|done|].
    right. split_and!; [done|done|]. left. by rewrite E2. }
  destruct (JSON_parse (body r2)) as [m2|j2] eqn:P2.
  { unfold answer_good. rewrite E2, P2. cbn [negb andb take reply_at].
    eexists _, VUndefined. erewrite path_username_malformed by done.
    cbn [log pending]. split_and!; [by rewrite <- app_assoc|done|].
    right. split_and!; [done|done|]. right. left. rewrite E2.
    split; [done|]. by eexists. }
  destruct (json_null_dec j2) as [->|N2].
  { unfold answer_good. rewrite E2, P2. cbn [negb andb nullish take reply_at].
    eexists _, VUndefined. erewrite path_username_null by done.
    cbn [log pending]. split_and!; [by rewrite <- app_assoc|done|].
    right. split_and!; [done|done|]. right. right. rewrite E2.
    split; [done|]. by eexists _, _. }
  assert (Hu : answer_ok JSON_parse r2 j2) by done.
  rewrite (answer_good_ok _ _ Hu). cbn [take reply_at].
  destruct (truthy (err r3)) eqn:E3.
  { eexists _, VUndefined. erewrite path_email_failed by done.
    cbn [log pending]. split_and!; [by rewrite <- app_assoc|done|].
    right. split_and!; [|done|].
    - intros _. unfold answer_good. by rewrite E3.
    - left. by rewrite E3. }
  destruct (JSON_parse (body r3)) as [m3|j3] eqn:P3.
  { eexists _, VUndefined. erewrite path_email_malformed by done.
    cbn [log pending]. split_and!; [by rewrite <- app_assoc|done|].
    right. split_and!; [|done|].
    - intros _. unfold answer_good. by rewrite E3, P3.
    - right. left. rewrite E3. split; [done|]. by eexists. }
  destruct (json_null_dec j3) as [->|N3].
  { eexists _, VUndefined. erewrite path_email_null by done.
    cbn [log pending]. split_and!; [by rewrite <- app_assoc|done|].
    right. split_and!; [|done|].
    - intros _. unfold answer_good. by rewrite E3, P3.
    - right. right. rewrite E3. split; [done|]. by eexists _, _. }
  assert (He : answer_ok JSON_parse r3 j3) by done.
  eexists VNull, _. erewrite path_fetched by done.
  cbn [log pending]. split_and!; [by rewrite <- app_assoc|done|].
  left. split_and!; try done. by apply answer_good_ok with j3.
Qed.

End Outcome.

(** ** A callback with any [done], against the same callback with one that
    returns *)

(** With [call_done] for the host's [done], the callbacks with [done] left
    open are the callbacks of the first part, and so is an invocation. *)
Lemma on_account_with_call_done JSON_parse this tok d r :
  on_account_with JSON_parse call_done this tok d r
  = on_account JSON_parse this tok d r.
Proof. reflexivity. Qed.

Lemma on_username_with_call_done JSON_parse this tok d profile r :
  on_username_with JSON_parse call_done this tok d profile r
  = on_username JSON_parse this tok d profile r.
Proof. reflexivity. Qed.

Lemma fetchProfile_with_call_done JSON_parse this tok d rs s :
  fetchProfile_with JSON_parse call_done this tok d rs s
  = fetchProfile JSON_parse this tok d rs s.
Proof. reflexivity. Qed.

Lemma last_is_get_snoc (l : list event) (g : event) :
  last_is_get (l ++ [g]) = is_get g.
Proof. unfold last_is_get. by rewrite last_snoc. Qed.

Lemma bind_inv_throw {A B : Type} (m : M A) (f : A -> M B) (s s' : state)
  (e : value) :
  (m ≫= f) s = (inl e, s') ->
  m s = (inl e, s') ∨ ∃ a s1, m s = (inr a, s1) ∧ f a s1 = (inl e, s').
Proof.
  unfold mbind, M_bind. destruct (m s) as [[x|a] s1].
  - intros [= -> ->]. by left.
  - intros H. right. by exists a, s1.
Qed.

Lemma oauth2_get_returned client url tok cb s s' :
  oauth2_get client url tok cb s = (inr tt, s') ->
  last_is_get (log s') = true.
Proof.
  unfold oauth2_get. destruct (nullish client); [done|].
  intros H. apply (f_equal snd) in H. cbn [snd] in H. subst s'.
  cbn [log]. by rewrite last_is_get_snoc.
Qed.

Lemma state_eta (s : state) (l : list event) :
  log s = l -> State (heap s) (pending s) l = s.
Proof. intros <-. by destruct s. Qed.

Section AnyDone.

Variable JSON_parse : string -> string + json.
Variable host_done : value -> value -> value -> M unit.

Hypothesis host_done_records : done_records host_done.

(** A call of [done] that nothing follows and no [try] block encloses. *)
Lemma done_call_sim d e s :
  let o := call (call_done d e VUndefined) s in
  ∃ lg, log o = lg ++ [Done d e VUndefined] ∧
        call (host_done d e VUndefined) s
        = State (heap o) (pending o)
            (log o ++ after_done host_done d e VUndefined
                        (State (heap o) (pending o) lg)).
Proof.
  assert (Ho : call (call_done d e VUndefined) s
               = State (heap s) (pending s) (log s ++ [Done d e VUndefined]))
    by reflexivity.
  cbn zeta. rewrite Ho. cbn [heap pending log].
  exists (log s). split; [done|].
  unfold call, after_done. rewrite (state_eta s (log s) eq_refl).
  destruct (host_done_records d e VUndefined s) as [r ->].
  destruct r as [x|[]]; cbn [heap pending log]; [done|].
  by rewrite app_nil_r.
Qed.

(** A [try] block that does not call [done], with the [catch] clause of the
    three callbacks. *)
Lemma catch_done_sim (block : M unit) d s :
  let o := call (try_catch block (fun e => call_done d e VUndefined)) s in
  (call (try_catch block (fun e => host_done d e VUndefined)) s = o ∧
   ∃ s1, block s = (inr tt, s1) ∧ o = s1)
  ∨ ∃ lg e, log o = lg ++ [Done d e VUndefined] ∧
            call (try_catch block (fun e => host_done d e VUndefined)) s
            = State (heap o) (pending o)
                (log o ++ after_done host_done d e VUndefined
                            (State (heap o) (pending o) lg)).
Proof.
  assert (Hold : ∀ handler : value -> M unit,
            call (try_catch block handler) s
            = match block s with
              | (inl e, s1) => call (handler e) s1
              | (inr _, s1) => s1
              end).
  { intros handler. unfold call, try_catch.
    by destruct (block s) as [[e|[]] s1]. }
  cbn zeta. rewrite !Hold.
  destruct (block s) as [[e|[]] s1] eqn:Hb.
  - right. destruct (done_call_sim d e s1) as (lg & Hlg & Hnew).
    exists lg, e. split; [exact Hlg|]. exact Hnew.
  - left. split; [done|]. by exists s1.
Qed.


(** The [try] block of the third callback, up to its call of [done]: it
    throws, or it reaches the call, and then the profile is an object. *)
Lemma email_block_cases p r s :
  ∃ res : value + state,
    (∀ k : M unit,
       (json ← parse JSON_parse (body r);
        x ← get_prop json "email";
        set_prop p "email" x;; k) s
       = match res with
         | inl e => (inl e, s)
         | inr s1 => k s1
         end) ∧
    match res with
    | inl _ => True
    | inr s1 => nullish p = false ∧ pending s1 = pending s ∧ log s1 = log s
    end.
Proof.
  unfold parse. destruct (JSON_parse (body r)) as [msg|j].
  { by eexists (inl _). }
  destruct (nullish (VData j)) eqn:Nj.
  { eexists (inl _). split; [|done]. intros k.
    unfold mbind, M_bind, mret, M_ret, get_prop. by rewrite Nj. }
  destruct (nullish p) eqn:Np.
  { eexists (inl _). split; [|done]. intros k.
    unfold mbind, M_bind, mret, M_ret, get_prop, set_prop. by rewrite Nj, Np. }
  eexists (inr _). split.
  - intros k. unfold mbind, M_bind, mret, M_ret, get_prop, set_prop.
    rewrite Nj, Np. reflexivity.
  - done.
Qed.

Lemma on_email_with_sim d p r s :
  let o := call (on_email JSON_parse d p r) s in
  ∃ lg e p0,
    log o = lg ++ [Done d e p0] ∧
    call (on_email_with JSON_parse host_done d p r) s
    = State (heap o) (pending o)
        (log o ++ after_done host_done d e p0 (State (heap o) (pending o) lg)).
Proof.
  cbn zeta. unfold on_email, on_email_with.
  destruct (truthy (err r)).
  { destruct (done_call_sim d (new_InternalOAuthError "failed to fetch email"
                                                      (err r)) s)
      as (lg & Hlg & Hnew).
    eexists lg, _, VUndefined. split; [exact Hlg|exact Hnew]. }
  destruct (email_block_cases p r s) as (res & Hblock & Hres).
  assert (Hold : ∀ (k : M unit) (handler : value -> M unit),
            call (try_catch (json ← parse JSON_parse (body r);
                             x ← get_prop json "email";
                             set_prop p "email" x;; k) handler) s
            = match res with
              | inl e => call (handler e) s
              | inr s1 => call (try_catch k handler) s1
              end).
  { intros k handler. unfold call, try_catch. rewrite Hblock.
    by destruct res as [e|s1]. }
  rewrite !Hold. destruct res as [e|s1].
  { destruct (done_call_sim d e s) as (lg & Hlg & Hnew).
    by exists lg, e, VUndefined. }
  destruct Hres as (Np & _ & _).
  assert (Ho : call (try_catch (call_done d VNull p)
                               (fun e => call_done d e VUndefined)) s1
               = State (heap s1) (pending s1) (log s1 ++ [Done d VNull p]))
    by reflexivity.
  rewrite Ho. cbn [heap pending log].
  exists (log s1), VNull, p. split; [done|].
  unfold call, try_catch, after_done.
  rewrite (state_eta s1 (log s1) eq_refl).
  destruct (host_done_records d VNull p s1) as [r0 ->].
  destruct r0 as [x|[]]; cbn [heap pending log].
  2:{ by rewrite app_nil_r. }
  destruct (host_done_records d x VUndefined
              (State (heap s1) (pending s1) (log s1 ++ [Done d VNull p])))
    as [r1 ->].
  cbn [heap pending log].
  destruct p; try discriminate Np;
    destruct r1 as [y|[]]; cbn [heap pending log];
    by rewrite <- ?app_assoc.
Qed.

(** The [try] blocks of the first and of the second callback end with a
    request: when they return, the last entry of the log is that request. *)
Ltac block_returned H :=
  repeat (apply bind_inv in H as (? & ? & _ & H));
  by apply oauth2_get_returned in H.

Lemma apply_closure_with_sim cl r s :
  let o := call (apply_closure JSON_parse cl r) s in
  (call (apply_closure_with JSON_parse host_done cl r) s = o ∧
   last_is_get (log o) = true)
  ∨ ∃ lg e p,
      log o = lg ++ [Done (closure_done cl) e p] ∧
      call (apply_closure_with JSON_parse host_done cl r) s
      = State (heap o) (pending o)
          (log o ++ after_done host_done (closure_done cl) e p
                      (State (heap o) (pending o) lg)).
Proof.
  destruct cl as [t tok d|t tok d pr|d pr];
    cbn [apply_closure apply_closure_with closure_done].
  - unfold on_account, on_account_with. destruct (truthy (err r)).
    { right. destruct (done_call_sim d (new_InternalOAuthError
                         "failed to fetch user profile" (err r)) s)
        as (lg & Hlg & Hnew).
      eexists lg, _, VUndefined. split; [exact Hlg|exact Hnew]. }
    match goal with
    | |- context [try_catch ?B (fun e => call_done d e VUndefined)] =>
        destruct (catch_done_sim B d s)
          as [[Hnew (s1 & Hb & Ho)]|(lg & e & Hlg & Hnew)]
    end.
    + left. split; [exact Hnew|]. rewrite Ho. block_returned Hb.
    + right. by exists lg, e, VUndefined.
  - unfold on_username, on_username_with. destruct (truthy (err r)).
    { right. destruct (done_call_sim d (new_InternalOAuthError
                         "failed to fetch username" (err r)) s)
        as (lg & Hlg & Hnew).
      eexists lg, _, VUndefined. split; [exact Hlg|exact Hnew]. }
    match goal with
    | |- context [try_catch ?B (fun e => call_done d e VUndefined)] =>
        destruct (catch_done_sim B d s)
          as [[Hnew (s1 & Hb & Ho)]|(lg & e & Hlg & Hnew)]
    end.
    + left. split; [exact Hnew|]. rewrite Ho. block_returned Hb.
    + right. by exists lg, e, VUndefined.
  - right. apply on_email_with_sim.
Qed.

End AnyDone.

(** ** One step of the callback chain, with a [done] that returns *)

Section Progress.

Variable JSON_parse : string -> string + json.

Lemma apply_closure_progress h0 lt c u1 u2 u3 cl r objs p lg :
  strategy_at h0 lt c u1 u2 u3 ->
  placed (length h0) lt (length (h0 ++ objs)) cl ->
  ∃ objs' ev p',
    apply_closure JSON_parse cl r (State (h0 ++ objs) p lg)
    = (inr tt, State (h0 ++ objs') (p ++ p') (lg ++ [ev])) ∧
    length objs ≤ length objs' ∧
    Forall (placed (length h0) lt (length (h0 ++ objs'))) p' ∧
    ((p' = [] ∧ ∃ e pr, ev = Done (closure_done cl) e pr)
     ∨ (∃ cl', p' = [cl'] ∧ closure_done cl' = closure_done cl ∧
               is_get ev = true)).
Proof.
  intros Hs Hcl.
  assert (Hidle : ∀ e,
    ∃ objs' ev p',
      (inr tt, State (h0 ++ objs) p (lg ++ [Done (closure_done cl) e VUndefined]))
      = (inr tt : value + unit, State (h0 ++ objs') (p ++ p') (lg ++ [ev])) ∧
      length objs ≤ length objs' ∧
      Forall (placed (length h0) lt (length (h0 ++ objs'))) p' ∧
      ((p' = [] ∧ ∃ e' pr, ev = Done (closure_done cl) e' pr)
       ∨ (∃ cl', p' = [cl'] ∧ closure_done cl' = closure_done cl ∧
                 is_get ev = true))).
  { intros e. exists objs, (Done (closure_done cl) e VUndefined), [].
    rewrite app_nil_r. split_and!; try done. left. split; [done|].
    by eexists _, _. }
  destruct cl as [t tok d|t tok d pr|d pr]; cbn [apply_closure placed closure_done] in *.
  - subst t. destruct (truthy (err r)) eqn:E.
    { rewrite on_account_failed by done. apply Hidle. }
    destruct (JSON_parse (body r)) as [msg|j] eqn:P.
    { erewrite on_account_malformed by done. apply Hidle. }
    assert (Hacc : (j = JNull ∨ nullish (member j "account") = true) ∨
                   ∃ a, member j "account" = VData a ∧ a ≠ JNull).
    { destruct (member_cases j "account") as [U|[a A]].
      - left. right. by rewrite U.
      - destruct (json_null_dec a) as [->|Na].
        + left. right. by rewrite A.
        + right. by exists a. }
    destruct Hacc as [Hno|(a & Ha & Hn)].
    + destruct (on_account_no_account JSON_parse (VRef lt) tok d r j E P Hno)
        as [msg Hm].
      rewrite Hm. cbn [heap pending log]. eexists (objs ++ [_]), _, [].
      rewrite app_nil_r, app_assoc. split; [done|].
      split; [rewrite length_app; lia|]. split; [done|].
      left. split; [done|]. by eexists _, _.
    + erewrite on_account_ok; try done; [|by apply strategy_at_app].
      cbn [heap pending log]. eexists (objs ++ [_]), _, [_].
      rewrite <- app_assoc. split; [done|].
      split; [rewrite length_app; lia|]. split.
      * apply Forall_singleton. cbn [placed]. split; [done|].
        eexists. split; [done|]. rewrite !length_app. cbn [length]. lia.
      * right. eexists. by split_and!.
  - destruct Hcl as (-> & l & -> & Hl).
    destruct (truthy (err r)) eqn:E.
    { rewrite on_username_failed by done. apply Hidle. }
    destruct (JSON_parse (body r)) as [msg|j] eqn:P.
    { erewrite on_username_malformed by done. apply Hidle. }
    destruct (json_null_dec j) as [->|Hn].
    { rewrite on_username_null by done. apply Hidle. }
    rewrite length_app in Hl.
    destruct (split_at objs (l - length h0)) as (a & o & b & -> & Hla); [lia|].
    replace l with (length (h0 ++ a)) by (rewrite length_app; lia).
    rewrite (app_assoc h0 a (o :: b)).
    erewrite on_username_ok; try done; [|by apply strategy_at_app].
    eexists (a ++ _ :: b), _, [_]. rewrite <- app_assoc.
    split; [done|]. split; [by rewrite !length_app|]. split.
    + apply Forall_singleton. cbn [placed]. eexists. split; [done|].
      rewrite !length_app. cbn [length]. lia.
    + right. eexists. by split_and!.
  - destruct Hcl as (l & -> & Hl).
    destruct (truthy (err r)) eqn:E.
    { rewrite on_email_failed by done. apply Hidle. }
    destruct (JSON_parse (body r)) as [msg|j] eqn:P.
    { erewrite on_email_malformed by done. apply Hidle. }
    destruct (json_null_dec j) as [->|Hn].
    { rewrite on_email_null by done. apply Hidle. }
    rewrite length_app in Hl.
    destruct (split_at objs (l - length h0)) as (a & o & b & -> & Hla); [lia|].
    replace l with (length (h0 ++ a)) by (rewrite length_app; lia).
    rewrite (app_assoc h0 a (o :: b)).
    erewrite on_email_ok; try done.
    eexists (a ++ _ :: b), _, []. rewrite <- app_assoc, app_nil_r.
    split; [done|]. split; [by rewrite !length_app|]. split; [done|].
    left. split; [done|]. by eexists _, _.
Qed.

End Progress.

(** ** What follows the first call of [done] *)


Lemma after_done_returns host_done d e p s :
  done_returns host_done -> after_done host_done d e p s = [].
Proof. intros H. unfold after_done. by rewrite H. Qed.

Lemma after_done_cases host_done d e p s :
  let extra := after_done host_done d e p s in
  extra = []
  ∨ (p = VUndefined ∧ ∃ x, extra = [Uncaught x])
  ∨ (p ≠ VUndefined ∧
     ∃ x, (host_done d e p s).1 = inl x ∧
          (extra = [Done d x VUndefined]
           ∨ ∃ y, extra = [Done d x VUndefined; Uncaught y])).
Proof.
  cbn zeta. unfold after_done.
  destruct (host_done d e p s) as [[x|[]] s1]; [|by left].
  right. destruct p as [|j|l|n m o].
  - left. split; [done|]. by exists x.
  - right. split; [done|]. exists x. split; [done|].
    destruct (host_done d x VUndefined s1) as [[y|[]] s2];
      [right; by exists y|by left].
  - right. split; [done|]. exists x. split; [done|].
    destruct (host_done d x VUndefined s1) as [[y|[]] s2];
      [right; by exists y|by left].
  - right. split; [done|]. exists x. split; [done|].
    destruct (host_done d x VUndefined s1) as [[y|[]] s2];
      [right; by exists y|by left].
Qed.

Lemma gets_after_done host_done d e p s :
  gets (after_done host_done d e p s) = [].
Proof.
  destruct (after_done_cases host_done d e p s)
    as [->|[(_ & x & ->)|(_ & x & _ & [->|(y & ->)])]]; done.
Qed.

(** ** One invocation with any [done] *)

Section AnyFetch.

Variable JSON_parse : string -> string + json.
Variable host_done : value -> value -> value -> M unit.

Hypothesis host_done_records : done_records host_done.

Lemma deliver_all_with_idle rs s :
  pending s = [] -> deliver_all_with JSON_parse host_done rs s = s.
Proof.
  intros Hp. unfold deliver_all_with.
  induction rs as [|r rs IH]; [done|]. cbn [foldl].
  replace (deliver_with JSON_parse host_done s r) with s; [done|].
  unfold deliver_with. by rewrite Hp.
Qed.

(** The replies to one invocation: as long as requests are issued the two
    programs go the same way; at the first call of [done] they part, and
    nothing is outstanding any more. *)
Lemma deliver_all_with_sim h0 lt c u1 u2 u3 d rs :
  strategy_at h0 lt c u1 u2 u3 ->
  ∀ s cl,
    pending s = [cl] -> closure_done cl = d -> in_flight h0 lt s ->
    last_is_get (log s) = true ->
    let o := deliver_all JSON_parse rs s in
    (deliver_all_with JSON_parse host_done rs s = o ∧
     last_is_get (log o) = true)
    ∨ (pending o = [] ∧
       ∃ lg e p,
         log o = lg ++ [Done d e p] ∧
         deliver_all_with JSON_parse host_done rs s
         = State (heap o) []
             (log o ++ after_done host_done d e p (State (heap o) [] lg))).
Proof.
  intros Hs. induction rs as [|r rs IH]; intros s cl Hp Hd Hin Hg.
  { by left. }
  destruct Hin as [[objs Hh] Hq]. rewrite Hp in Hq.
  apply Forall_cons in Hq as [Hq _]. rewrite Hh in Hq.
  destruct (apply_closure_progress JSON_parse h0 lt c u1 u2 u3 cl r objs []
              (log s) Hs Hq)
    as (objs' & ev & p' & Hrun & Hlen & Hp' & Hev).
  cbn [app] in Hrun.
  assert (Ho1 : call (apply_closure JSON_parse cl r)
                     (State (h0 ++ objs) [] (log s))
                = State (h0 ++ objs') p' (log s ++ [ev]))
    by (unfold call; by rewrite Hrun).
  assert (Hold1 : deliver JSON_parse s r
                  = State (h0 ++ objs') p' (log s ++ [ev]))
    by (unfold deliver; by rewrite Hp, Hh, Ho1).
  assert (Hnew1 : deliver_with JSON_parse host_done s r
                  = call (apply_closure_with JSON_parse host_done cl r)
                         (State (h0 ++ objs) [] (log s)))
    by (unfold deliver_with; by rewrite Hp, Hh).
  cbn zeta.
  change (deliver_all JSON_parse (r :: rs) s)
    with (deliver_all JSON_parse rs (deliver JSON_parse s r)).
  change (deliver_all_with JSON_parse host_done (r :: rs) s)
    with (deliver_all_with JSON_parse host_done rs
            (deliver_with JSON_parse host_done s r)).
  rewrite Hold1, Hnew1.
  destruct (apply_closure_with_sim JSON_parse host_done host_done_records
              cl r (State (h0 ++ objs) [] (log s)))
    as [[Hnew Hlast]|(lg & e & p & Hlg & Hnew)];
    rewrite Ho1 in *; cbn [heap pending log] in *.
  - rewrite last_is_get_snoc in Hlast.
    destruct Hev as [(-> & e & pr & ->)|(cl' & -> & Hd' & _)]; [done|].
    rewrite Hnew.
    apply (IH _ cl'); cbn [heap pending log]; try done.
    + congruence.
    + split; cbn [heap pending]; [by exists objs'|done].
    + by rewrite last_is_get_snoc.
  - apply app_inj_tail in Hlg as [<- ->].
    destruct Hev as [(-> & _)|(cl' & _ & _ & ?)]; [|done].
    right. rewrite Hnew.
    rewrite deliver_all_idle, deliver_all_with_idle by done.
    cbn [heap pending log]. split; [done|].
    exists (log s), e, p. rewrite Hd. by split.
Qed.

(** The log of one invocation with any [done], from the replies: the
    requests, the first call of [done], and what follows it. *)
Lemma fetchProfile_with_trace lt tok d c u1 u2 u3 r1 r2 r3 rest s :
  ready s lt c u1 u2 u3 ->
  let k := requests_issued JSON_parse r1 r2 in
  let o := fetchProfile JSON_parse (VRef lt) tok d (r1 :: r2 :: r3 :: rest) s in
  let requests :=
    log s ++ take k [Get c u1 tok; Get c u2 tok; Get c u3 tok] in
  ∃ e p,
    log o = requests ++ [Done d e p] ∧ pending o = [] ∧
    fetchProfile_with JSON_parse host_done (VRef lt) tok d
                      (r1 :: r2 :: r3 :: rest) s
    = State (heap o) []
        (requests ++ Done d e p ::
           after_done host_done d e p (State (heap o) [] requests)) ∧
    ((k = 3 ∧ answer_good JSON_parse r3 = true ∧
      e = VNull ∧ p = VRef (length (heap s)))
     ∨ ((k = 3 -> answer_good JSON_parse r3 = false) ∧
        p = VUndefined ∧
        stops_with JSON_parse k (reply_at k r1 r2 r3) e)).
Proof.
  intros Hr k o requests.
  destruct (fetchProfile_trace JSON_parse lt tok d c u1 u2 u3 r1 r2 r3 rest s Hr)
    as (e & p & Hlog & Hpend & Hfirst).
  fold k o requests in Hlog, Hpend, Hfirst.
  exists e, p. split; [exact Hlog|]. split; [exact Hpend|].
  split; [|exact Hfirst].
  unfold fetchProfile_with.
  assert (Hstart : call (userProfile (VRef lt) tok d) s
                   = State (heap s) [OnAccount (VRef lt) tok d]
                           (log s ++ [Get c u1 tok])).
  { destruct Hr as [Hp Hs]. unfold call.
    by rewrite (userProfile_run _ _ _ _ _ _ _ _ Hs), Hp. }
  rewrite Hstart.
  assert (Ho : o = deliver_all JSON_parse (r1 :: r2 :: r3 :: rest)
                     (State (heap s) [OnAccount (VRef lt) tok d]
                            (log s ++ [Get c u1 tok])))
    by (unfold o; by rewrite (fetchProfile_start JSON_parse _ _ _ _ _ _ _ _ _ Hr)).
  destruct (deliver_all_with_sim (heap s) lt c u1 u2 u3 d
              (r1 :: r2 :: r3 :: rest) (proj2 Hr)
              (State (heap s) [OnAccount (VRef lt) tok d]
                     (log s ++ [Get c u1 tok]))
              (OnAccount (VRef lt) tok d))
    as [[_ Hlast]|(_ & lg & e0 & p0 & Hlg & Hnew)];
    cbn [heap pending log closure_done]; try done.
  - split; cbn [heap pending]; [exists []; by rewrite app_nil_r|].
    by apply Forall_singleton.
  - by rewrite last_is_get_snoc.
  - rewrite <- Ho, Hlog, last_is_get_snoc in Hlast. done.
  - rewrite <- Ho in Hlg, Hnew. rewrite Hlog in Hlg.
    apply app_inj_tail in Hlg as [<- [= <- <-]].
    rewrite Hnew, Hlog. by rewrite <- app_assoc.
Qed.

End AnyFetch.

(** ** What the host sees of one invocation *)

Section ForTheHost.

Variable JSON_parse : string -> string + json.
Variable host_done : value -> value -> value -> M unit.



(** X1.  For a [done] that may return or throw: one invocation issues the
    account request, then the username request, then the email request, and
    stops at the first that does not succeed.  How many it issues is decided
    by the first two replies; the requests come before the first call of
    [done], and no request follows it.  That call gets a [null] error if and
    only if all three requests succeeded. *)
Theorem requests_in_order lt tok d c u1 u2 u3 r1 r2 r3 rest s :
  done_records host_done ->
  ready s lt c u1 u2 u3 ->
  let s' := fetchProfile_with JSON_parse host_done (VRef lt) tok d
              (r1 :: r2 :: r3 :: rest) s in
  let k := requests_issued JSON_parse r1 r2 in
  ∃ e p extra,
    log s' = (log s ++ take k [Get c u1 tok; Get c u2 tok; Get c u3 tok])
             ++ Done d e p :: extra ∧
    gets extra = [] ∧ pending s' = [] ∧
    (e = VNull <-> k = 3 ∧ answer_good JSON_parse r3 = true).
Proof.
  intros Hrec Hr s' k.
  destruct (fetchProfile_with_trace JSON_parse host_done Hrec
              lt tok d c u1 u2 u3 r1 r2 r3 rest s Hr)
    as (e & p & _ & _ & Hnew & Hfirst).
  fold k in Hnew, Hfirst. unfold s'. rewrite Hnew. cbn [log pending].
  eexists e, p, _. split; [reflexivity|].
  split; [apply gets_after_done|]. split; [done|].
  destruct Hfirst as [(Hk & Hg & -> & _)|(Hbad & _ & Hstop)].
  - done.
  - split.
    + intros ->.
      by destruct Hstop as [[_ ?]|[(_ & ? & _ & ?)|(_ & ? & ? & _ & ?)]].
    + intros [Hk Hg]. rewrite (Hbad Hk) in Hg. done.
Qed.

(** X2.  For a [done] that may return or throw.  The first call of [done]
    gets the profile and a [null] error, or no profile and an error decided
    by the reply at which the invocation stopped: that reply's transport
    error, wrapped in an [InternalOAuthError] with the label of its request;
    or the [SyntaxError] with the message of [JSON.parse] on its body; or,
    when the body parsed, a [TypeError].  [done] is called a second time
    only when the call with the profile threw, and then with what it threw
    and no profile. *)
Theorem error_kinds lt tok d c u1 u2 u3 r1 r2 r3 rest s :
  done_records host_done ->
  ready s lt c u1 u2 u3 ->
  let s' := fetchProfile_with JSON_parse host_done (VRef lt) tok d
              (r1 :: r2 :: r3 :: rest) s in
  let k := requests_issued JSON_parse r1 r2 in
  let requests :=
    log s ++ take k [Get c u1 tok; Get c u2 tok; Get c u3 tok] in
  ∃ e p extra,
    log s' = requests ++ Done d e p :: extra ∧
    ((k = 3 ∧ answer_good JSON_parse r3 = true ∧
      e = VNull ∧ p = VRef (length (heap s)))
     ∨ ((k = 3 -> answer_good JSON_parse r3 = false) ∧
        p = VUndefined ∧
        stops_with JSON_parse k (reply_at k r1 r2 r3) e)) ∧
    (dones extra = []
     ∨ (e = VNull ∧
        ∃ x, (host_done d VNull p (State (heap s') [] requests)).1 = inl x ∧
             dones extra = [Done d x VUndefined])).
Proof.
  intros Hrec Hr s' k requests.
  destruct (fetchProfile_with_trace JSON_parse host_done Hrec
              lt tok d c u1 u2 u3 r1 r2 r3 rest s Hr)
    as (e & p & _ & _ & Hnew & Hfirst).
  fold k requests in Hnew, Hfirst. unfold s'. rewrite Hnew. cbn [log heap].
  eexists e, p, _. split; [reflexivity|]. split; [exact Hfirst|].
  match goal with
  | |- context [after_done host_done d e p ?s2] =>
      destruct (after_done_cases host_done d e p s2)
        as [->|[(_ & x & ->)|(Hp & x & Hx & Hextra)]]
  end.
  - by left.
  - by left.
  - right.
    destruct Hfirst as [(_ & _ & -> & _)|(_ & -> & _)]; [|done].
    split; [done|]. exists x. split; [exact Hx|].
    by destruct Hextra as [->|(y & ->)].
Qed.

End ForTheHost.

(** ** Any schedule of invocations and answers *)

Section Schedules.

Variable JSON_parse : string -> string + json.
Variable host_done : value -> value -> value -> M unit.

Hypothesis host_done_records : done_records host_done.

(** One callback, run on any store that holds the strategy: it issues the
    next request and queues its callback, or it calls [done], once or twice,
    and queues nothing. *)
Lemma apply_closure_with_progress h0 lt c u1 u2 u3 cl r objs p lg :
  strategy_at h0 lt c u1 u2 u3 ->
  placed (length h0) lt (length (h0 ++ objs)) cl ->
  ∃ objs' ev p' extra,
    call (apply_closure_with JSON_parse host_done cl r)
         (State (h0 ++ objs) p lg)
    = State (h0 ++ objs') (p ++ p') (lg ++ ev :: extra) ∧
    length objs ≤ length objs' ∧
    Forall (placed (length h0) lt (length (h0 ++ objs'))) p' ∧
    (done_returns host_done -> extra = []) ∧
    ((p' = [] ∧ (∃ e pr, ev = Done (closure_done cl) e pr) ∧
      (extra = [] ∨ (∃ x, extra = [Uncaught x])
       ∨ ∃ x, extra = [Done (closure_done cl) x VUndefined]
              ∨ ∃ y, extra = [Done (closure_done cl) x VUndefined;
                              Uncaught y]))
     ∨ (∃ cl', p' = [cl'] ∧ closure_done cl' = closure_done cl ∧
               is_get ev = true ∧ extra = [])).
Proof.
  intros Hs Hcl.
  destruct (apply_closure_progress JSON_parse h0 lt c u1 u2 u3 cl r objs p lg
              Hs Hcl)
    as (objs' & ev & p' & Hrun & Hlen & Hp' & Hev).
  assert (Ho : call (apply_closure JSON_parse cl r) (State (h0 ++ objs) p lg)
               = State (h0 ++ objs') (p ++ p') (lg ++ [ev]))
    by (unfold call; by rewrite Hrun).
  destruct (apply_closure_with_sim JSON_parse host_done host_done_records
              cl r (State (h0 ++ objs) p lg))
    as [[Hnew Hlast]|(lg' & e & pr & Hlg & Hnew)];
    rewrite Ho in *; cbn [heap pending log] in *.
  - rewrite last_is_get_snoc in Hlast.
    exists objs', ev, p', []. rewrite Hnew. split_and!; try done.
    destruct Hev as [(-> & e & pr & ->)|(cl' & -> & Hd' & Hg)]; [done|].
    right. by exists cl'.
  - apply app_inj_tail in Hlg as [<- ->].
    destruct Hev as [(-> & _)|(cl' & _ & _ & ?)]; [|done].
    eexists objs', _, [], _. rewrite Hnew, <- app_assoc.
    split; [reflexivity|]. split_and!; try done.
    { intros Hret. by apply after_done_returns. }
    left. split; [done|]. split; [by eexists _, _|].
    match goal with
    | |- context [after_done host_done ?d e pr ?s2] =>
        destruct (after_done_cases host_done d e pr s2)
          as [->|[(_ & x & ->)|(_ & x & _ & Hextra)]]
    end.
    + by left.
    + right. left. by exists x.
    + right. right. exists x. exact Hextra.
Qed.

Lemma completed_app P l1 l2 :
  completed P (l1 ++ l2) = completed P l1 + completed P l2.
Proof. unfold completed. by rewrite List.filter_app, length_app. Qed.

Lemma outstanding_snoc P q cl :
  outstanding P (q ++ [cl])
  = outstanding P q + (if P (closure_done cl) then 1 else 0).
Proof.
  unfold outstanding. rewrite List.filter_app, length_app. f_equal.
  cbn. by destruct (P (closure_done cl)).
Qed.

Lemma outstanding_cons P q cl :
  outstanding P (cl :: q)
  = (if P (closure_done cl) then 1 else 0) + outstanding P q.
Proof. unfold outstanding. cbn. by destruct (P (closure_done cl)). Qed.

Lemma outstanding_delete P q i cl :
  q !! i = Some cl ->
  outstanding P q
  = (if P (closure_done cl) then 1 else 0) + outstanding P (delete i q).
Proof.
  revert i. induction q as [|c q IH]; intros [|i] Hi; try done.
  - injection Hi as ->. apply outstanding_cons.
  - cbn [delete list_delete]. rewrite !outstanding_cons.
    rewrite (IH i Hi).
    by destruct (P (closure_done cl)), (P (closure_done c)).
Qed.

(** With [0] for [i] the answer goes to the oldest request. *)
Lemma deliver_to_oldest s r :
  deliver_to JSON_parse host_done 0 s r = deliver_with JSON_parse host_done s r.
Proof. unfold deliver_to, deliver_with. by destruct (pending s). Qed.

Lemma act_accounted P h0 lt c u1 u2 u3 log0 n s a :
  strategy_at h0 lt c u1 u2 u3 ->
  accounted host_done P h0 lt log0 n s ->
  accounted host_done P h0 lt log0
    (n + match a with Invoke _ d => if P d then 1 else 0 | Answer _ _ => 0 end)
    (act JSON_parse host_done (VRef lt) s a).
Proof.
  intros Hs ([[objs Hh] Hq] & evs & m & Hlog & Hn & Hm & Hret).
  destruct s as [h q lg]. cbn [heap pending log] in *. subst h lg.
  destruct a as [tok d|i r]; cbn [act].
  - unfold call.
    erewrite userProfile_run by (cbn [heap]; by apply strategy_at_app).
    cbn [heap pending log]. split; [split|].
    + by exists objs.
    + apply Forall_app. split; [done|]. by apply Forall_singleton.
    + exists (evs ++ [Get c u1 tok]), m. rewrite app_assoc. split; [done|].
      cbn [pending]. rewrite completed_app, outstanding_snoc.
      cbn [closure_done]. change (completed P [Get c u1 tok]) with 0.
      rewrite Nat.add_0_r. split; [lia|]. split; [done|].
      intros R. destruct (Hret R) as [? ?]. split; [done|].
      apply Forall_app. split; [done|]. by apply Forall_singleton.
  - unfold deliver_to. cbn [pending heap log].
    destruct (q !! i) as [cl|] eqn:Hi.
    2:{ rewrite Nat.add_0_r. split; [split; [by exists objs|done]|].
        by exists evs, m. }
    assert (Hcl := Forall_lookup_1 _ _ _ _ Hq Hi).
    assert (Hrest := Forall_delete _ _ i Hq).
    set (rest := delete i q) in *.
    destruct (apply_closure_with_progress h0 lt c u1 u2 u3 cl r objs rest
                (log0 ++ evs) Hs Hcl)
      as (objs' & ev & p' & extra & Hrun & Hlen & Hp' & Hnone & Hev).
    rewrite Hrun. rewrite Nat.add_0_r.
    rewrite (outstanding_delete P q i cl Hi) in Hn. fold rest in Hn.
    split; [split|]; cbn [heap pending log].
    + by exists objs'.
    + apply Forall_app. split; [|done].
      eapply Forall_impl; [exact Hrest|]. intros cl'. apply placed_mono.
      rewrite !length_app. lia.
    + destruct Hev as [(-> & (e & pr & ->) & Hextra)|(cl' & -> & Hd & Hg & ->)].
      * exists (evs ++ Done (closure_done cl) e pr :: extra),
               (m + if P (closure_done cl) then 1 else 0).
        rewrite app_assoc, app_nil_r. split; [done|].
        rewrite completed_app. split; [lia|].
        assert (Hc : ∃ n', completed P (Done (closure_done cl) e pr :: extra)
                           = (if P (closure_done cl) then 1 else 0) + n' ∧
                           n' ≤ (if P (closure_done cl) then 1 else 0)).
        { unfold completed.
          destruct Hextra as [->|[(x & ->)|(x & [->|(y & ->)])]];
            cbn [List.filter]; destruct (P (closure_done cl)); cbn [length];
            eexists; split; try reflexivity; lia. }
        destruct Hc as (n' & Hc & Hn'). split; [rewrite Hc; lia|].
        intros R. destruct (Hret R) as [Hcm Hun]. rewrite (Hnone R).
        split.
        { assert (H1 : completed P [Done (closure_done cl) e pr]
                       = if P (closure_done cl) then 1 else 0).
          { unfold completed. cbn [List.filter].
            by destruct (P (closure_done cl)). }
          lia. }
        apply Forall_app. split; [done|]. by apply Forall_singleton.
      * exists (evs ++ [ev]), m. rewrite app_assoc. split; [done|].
        rewrite outstanding_snoc, Hd, completed_app.
        destruct ev; try done. change (completed P [Get client url accessToken]) with 0.
        rewrite Nat.add_0_r. split; [lia|]. split; [done|].
        intros R. destruct (Hret R) as [? ?]. split; [done|].
        apply Forall_app. split; [done|]. by apply Forall_singleton.
Qed.

Lemma schedule_accounted P h0 lt c u1 u2 u3 log0 acts n s :
  strategy_at h0 lt c u1 u2 u3 ->
  accounted host_done P h0 lt log0 n s ->
  accounted host_done P h0 lt log0 (n + invoked P acts)
            (schedule JSON_parse host_done (VRef lt) acts s).
Proof.
  intros Hs. unfold schedule. revert n s.
  induction acts as [|a acts IH]; intros n s Hacc; cbn [foldl].
  - unfold invoked. cbn. by rewrite Nat.add_0_r.
  - replace (n + invoked P (a :: acts))
      with ((n + match a with
                 | Invoke _ d => if P d then 1 else 0
                 | Answer _ _ => 0
                 end) + invoked P acts).
    + apply IH. by apply act_accounted with c u1 u2 u3.
    + unfold invoked. cbn [List.filter].
      destruct a as [tok d|i r]; [destruct (P d)|]; cbn [length]; lia.
Qed.

(** X7.  For a [done] that may return or throw, however invocations and
    answers are interleaved, in whatever order the answers come and however
    they turn out: every invocation is at each moment either waiting for one
    answer or finished, and a finished one has called its [done] once or
    twice.  So for any selection [P] of completion callbacks, with [m] the
    finished invocations, [m] plus the callbacks still queued are the
    invocations made, and the calls of [done] so far are between [m] and
    [2 * m].  When [done] always returns they are exactly [m], and no
    exception escapes.  No object that existed at the start is changed. *)
Theorem schedule_accounts P lt c u1 u2 u3 acts s :
  ready s lt c u1 u2 u3 ->
  let s' := schedule JSON_parse host_done (VRef lt) acts s in
  ∃ objs evs m,
    heap s' = heap s ++ objs ∧ log s' = log s ++ evs ∧
    m + outstanding P (pending s') = invoked P acts ∧
    m ≤ completed P evs ≤ 2 * m ∧
    (done_returns host_done ->
     completed P evs = m ∧ Forall (fun e => is_uncaught e = false) evs).
Proof.
  intros [Hp Hs] s'.
  assert (H0 : accounted host_done P (heap s) lt (log s) 0 s).
  { split; [split|].
    - exists []. by rewrite app_nil_r.
    - by rewrite Hp.
    - exists [], 0. rewrite app_nil_r, Hp. split_and!; try done.
      all: unfold completed; cbn; lia. }
  destruct (schedule_accounted P (heap s) lt c u1 u2 u3 (log s) acts 0 s Hs H0)
    as ([[objs Hh] _] & evs & m & Hlog & Hn & Hm & Hret).
  by exists objs, evs, m.
Qed.

End Schedules.

(** ** When [done] throws *)

Section ThrowingDone.

Variable JSON_parse : string -> string + json.

Lemma on_email_with_call_done done profile r :
  on_email_with JSON_parse call_done done profile r
  = on_email JSON_parse done profile r.
Proof. reflexivity. Qed.

(** X14.  The call [done(null, profile)] stands inside the [try] block of the
    third callback.  If [done] throws there, the [catch] clause calls it
    again, with the exception and no profile: [done] is called twice for one
    invocation, and the exception of the second call escapes to the event
    loop.  After a transport error [done] is called outside the [try]: once,
    and its exception escapes. *)
Theorem throwing_done_called_again e d l r s :
  (∀ j, answer_ok JSON_parse r j ->
     call (on_email_with JSON_parse (throwing_done e) d (VRef l) r) s
     = State (write (heap s) (VRef l) "email" (member j "email")) (pending s)
             (log s ++ [Done d VNull (VRef l); Done d e VUndefined;
                        Uncaught e])) ∧
  (truthy (err r) = true ->
     call (on_email_with JSON_parse (throwing_done e) d (VRef l) r) s
     = State (heap s) (pending s)
             (log s ++ [Done d (VError InternalOAuthError
                                       "failed to fetch email" (err r))
                             VUndefined;
                        Uncaught e])).
Proof.
  split.
  - intros j (E & P & Hn).
    unfold call, on_email_with, try_catch, parse. rewrite E, P.
    rewrite bind_ret, (bind_get_data j) by done.
    rewrite bind_set_write.
    unfold throwing_done, emit, throw, mbind, M_bind.
    cbn [heap pending log]. by rewrite <- !app_assoc.
  - intros E. unfold call, on_email_with. rewrite E.
    unfold throwing_done, emit, throw, mbind, M_bind, new_InternalOAuthError.
    cbn [heap pending log]. by rewrite <- !app_assoc.
Qed.

End ThrowingDone.

(** * Further properties of the constructor *)

Lemma resolve_idem (x d : value) :
  truthy d = true -> resolve (resolve x d) d = resolve x d.
Proof. unfold resolve. destruct (truthy x) eqn:E; [by rewrite E|]. by intros ->. Qed.


Lemma field_at (h l : list object) (i : nat) (k : string) :
  field (h ++ l) (length h + i) k = field l i k.
Proof.
  unfold field. rewrite lookup_app_r by lia.
  by replace (length h + i - length h) with i by lia.
Qed.

Lemma write_at (h l : list object) (i : nat) (k : string) (x : value) :
  write (h ++ l) (VRef (length h + i)) k x = h ++ write l (VRef i) k x.
Proof. unfold write. by rewrite alter_app_r. Qed.

Ltac eval_field H :=
  match type of H with
  | context [field ?l ?i ?k] =>
      let v := eval vm_compute in (field l i k) in
      replace (field l i k) with v in H by (vm_compute; reflexivity)
  end.

Ltac read_at H :=
  rewrite bind_get_ref in H; cbn [heap pending log] in H;
  rewrite field_at in H;
  match type of H with
  | context [field ?l _ _] =>
      lazymatch l with
      | context [VRef (?a + ?b)] =>
          let hv := fresh "hv" in
          let E := fresh "E" in
          remember (VRef (a + b)) as hv eqn:E in H;
          eval_field H; subst hv
      | _ => eval_field H
      end
  end.

Ltac write_at H :=
  rewrite bind_set_write in H; cbn [heap pending log] in H;
  rewrite write_at in H.

Section Configuration.

Variable OAuth2Strategy_call : value -> value -> value -> M unit.

Hypothesis OAuth2Strategy_frame : ∀ l options verify s,
  changes_only (fun l' _ => l' = l) s
               (OAuth2Strategy_call (VRef l) options verify s).2.

(** A construction from an options object, up to and after the call of the
    generic strategy. *)
Lemma construction_split lo verify s (r : value + value) s' :
  lo < length (heap s) ->
  new_Strategy OAuth2Strategy_call (VRef lo) verify s = (r, s') ->
  let h := heap s in
  let lt := length h in
  ∃ hP rE sE,
    OAuth2Strategy_call (VRef lt) (VRef lo) verify
                        (State hP (pending s) (log s)) = (rE, sE) ∧
    S lt ≤ length hP ∧
    (truthy (field h lo "customHeaders") = false -> S lt < length hP) ∧
    field hP lo "authorizationURL"
    = resolve (field h lo "authorizationURL")
              (VStr "https://api.envato.com/authorization") ∧
    field hP lo "tokenURL"
    = resolve (field h lo "tokenURL") (VStr "https://api.envato.com/token") ∧
    field hP lo "customHeaders"
    = resolve (field h lo "customHeaders") (VRef (S lt)) ∧
    match rE with
    | inl e => r = inl e ∧ s' = sE
    | inr _ => r = inr (VRef lt) ∧ length (heap s') = length (heap sE)
    end.
Proof.
  intros Hlo H. destruct s as [h p lg]. cbn [heap pending log] in *.
  unfold new_Strategy in H. rewrite bind_new_object in H.
  cbn [heap pending log] in H.
  unfold mbind at 1 in H. unfold M_bind at 1 in H.
  destruct (Strategy _ _ _ _ _) as [rS sf] eqn:HS in H.
  apply (defaults_effect OAuth2Strategy_call lo (length h)) in HS
    as (hP & k & HS & -> & HP); try done.
  cbv zeta in HP. destruct HP as (Hlt & Ha & Ht & Hv & Hfresh & _ & _).
  unfold mbind at 1 in HS. unfold M_bind at 1 in HS.
  destruct (OAuth2Strategy_call _ _ _ _) as [rE sE] eqn:Heng.
  exists hP, rE, sE. split_and!; try done.
  destruct rE as [e|[]].
  - injection HS as <- <-. by injection H as <- <-.
  - forward HS. unfold set_prop in HS. cbn [nullish heap pending log] in HS.
    assert (E1 := f_equal fst HS). assert (E2 := f_equal snd HS).
    cbn [fst snd] in E1, E2. subst rS sf. unfold mret, M_ret in H.
    assert (E1 := f_equal fst H). assert (E2 := f_equal snd H).
    cbn [fst snd] in E1, E2. subst r s'. split; [done|].
    cbn [heap]. by rewrite !length_write.
Qed.

(** X9.  Of the five endpoint options, a value that JavaScript counts as
    true is used as given; one that it counts as false (not only a missing
    one: also [null], the empty string, [0], [false]) is replaced by the
    fixed address. *)
Theorem endpoint_options_resolved lo verify s this s' :
  lo < length (heap s) ->
  new_Strategy OAuth2Strategy_call (VRef lo) verify s = (inr this, s') ->
  let h := heap s in
  let h' := heap s' in
  let lt := length h in
  let resolved k v d :=
    (truthy (field h lo k) = true -> v = field h lo k) ∧
    (truthy (field h lo k) = false -> v = VStr d) in
  resolved "authorizationURL" (field h' lo "authorizationURL")
           "https://api.envato.com/authorization" ∧
  resolved "tokenURL" (field h' lo "tokenURL")
           "https://api.envato.com/token" ∧
  resolved "userProfileURL" (field h' lt "_userProfileURL")
           "https://api.envato.com/v1/market/private/user/account.json" ∧
  resolved "userProfileUsername" (field h' lt "_userProfileUsername")
           "https://api.envato.com/v1/market/private/user/username.json" ∧
  resolved "userProfileEmail" (field h' lt "_userProfileEmail")
           "https://api.envato.com/v1/market/private/user/email.json".
Proof.
  intros Hlo H h h' lt resolved.
  destruct (new_Strategy_effect OAuth2Strategy_call OAuth2Strategy_frame
              lo verify s this s' Hlo H)
    as (_ & _ & Ha & Hk & _ & _ & _ & H1 & H2 & H3 & _).
  fold h h' lt in Ha, Hk, H1, H2, H3.
  unfold resolved.
  rewrite Ha, Hk, H1, H2, H3. unfold resolve.
  split_and!; by intros ->.
Qed.

(** X10.  The instance is a new object, and whatever the generic strategy
    wrote on it, its [name] is ["envato"] afterwards. *)
Theorem instance_named lo verify s this s' :
  lo < length (heap s) ->
  new_Strategy OAuth2Strategy_call (VRef lo) verify s = (inr this, s') ->
  ∃ lt, this = VRef lt ∧ heap s !! lt = None ∧ is_Some (heap s' !! lt) ∧
        field (heap s') lt "name" = VStr "envato".
Proof.
  intros Hlo H.
  destruct (new_Strategy_effect OAuth2Strategy_call OAuth2Strategy_frame
              lo verify s this s' Hlo H)
    as (Ht & Hlt & _ & _ & _ & _ & Hn & _).
  exists (length (heap s)). split_and!; try done.
  - by apply lookup_ge_None_2.
  - by apply lookup_lt_is_Some_2.
Qed.

(** X11.  With an options object, the only exception a construction can end
    in is one thrown by the generic strategy; when that happens the caller's
    options have already been given their defaults, and they keep them. *)
Theorem construction_failure lo verify s e s' :
  lo < length (heap s) ->
  new_Strategy OAuth2Strategy_call (VRef lo) verify s = (inl e, s') ->
  let h := heap s in
  (∃ sP, OAuth2Strategy_call (VRef (length h)) (VRef lo) verify sP
         = (inl e, s')) ∧
  field (heap s') lo "authorizationURL"
  = resolve (field h lo "authorizationURL")
            (VStr "https://api.envato.com/authorization") ∧
  field (heap s') lo "tokenURL"
  = resolve (field h lo "tokenURL") (VStr "https://api.envato.com/token") ∧
  truthy (field (heap s') lo "customHeaders") = true.
Proof.
  intros Hlo H h.
  destruct (construction_split lo verify s (inl e) s' Hlo H)
    as (hP & rE & sE & Heng & Hlen & _ & Ha & Ht & Hv & Hr).
  destruct rE as [e'|]; [|by destruct Hr].
  destruct Hr as [[= <-] ->].
  destruct (OAuth2Strategy_frame (length (heap s)) (VRef lo) verify
              (State hP (pending s) (log s))) as [_ Hfr].
  rewrite Heng in Hfr. cbn [snd heap] in Hfr.
  rewrite !Hfr by (cbn; lia). rewrite Ha, Ht, Hv.
  split_and!; try done; [by eexists|].
  by apply resolve_truthy.
Qed.

(** X12.  Building a second strategy from the same options changes no
    object that existed after the first construction, the options and the
    first instance included, and the second instance gets the same three
    profile addresses as the first. *)
Theorem second_construction lo verify verify' s this s' this' s'' :
  lo < length (heap s) ->
  (∀ lh, field (heap s) lo "customHeaders" = VRef lh -> lh < length (heap s)) ->
  new_Strategy OAuth2Strategy_call (VRef lo) verify s = (inr this, s') ->
  new_Strategy OAuth2Strategy_call (VRef lo) verify' s' = (inr this', s'') ->
  (∀ l k, l < length (heap s') ->
          field (heap s'') l k = field (heap s') l k) ∧
  ∃ lt lt', this = VRef lt ∧ this' = VRef lt' ∧ lt < lt' ∧
    Forall (fun k => field (heap s'') lt' k = field (heap s'') lt k)
           ["name"; "_userProfileURL"; "_userProfileUsername";
            "_userProfileEmail"].
Proof.
  intros Hlo Hwf H1 H2.
  destruct (new_Strategy_effect OAuth2Strategy_call OAuth2Strategy_frame
              lo verify s this s' Hlo H1)
    as (-> & Hlt & Ha & Hk & Hv & Hua & Hn & U1 & U2 & U3 & Hfr).
  assert (Hlo' : lo < length (heap s')) by lia.
  destruct (new_Strategy_effect OAuth2Strategy_call OAuth2Strategy_frame
              lo verify' s' this' s'' Hlo' H2)
    as (-> & Hlt' & Ha' & Hk' & Hv' & Hua' & Hn' & U1' & U2' & U3' & Hfr').
  cbv zeta in *.
  set (h := heap s) in *. set (h' := heap s') in *. set (h'' := heap s'') in *.
  assert (Hvt : truthy (field h' lo "customHeaders") = true)
    by (rewrite Hv; by apply resolve_truthy).
  assert (Hv'' : field h'' lo "customHeaders" = field h' lo "customHeaders").
  { rewrite Hv'. unfold resolve. by rewrite Hvt. }
  assert (Hopt : ∀ k, k ≠ "authorizationURL" -> k ≠ "tokenURL" ->
                      k ≠ "customHeaders" -> k ≠ "User-Agent" ->
                      field h' lo k = field h lo k).
  { intros k ? ? ? ?. apply Hfr; [done|].
    intros [[_ [?|[?|?]]]|[? _]]; done. }
  assert (Hres : ∀ x d, truthy x = true -> resolve x d = x)
    by (intros x d E; unfold resolve; by rewrite E).
  assert (Hsame : ∀ l k, l < length h' -> field h'' l k = field h' l k).
  { intros l k Hl.
    destruct (decide (l = lo ∧ k = "authorizationURL")) as [[-> ->]|N1].
    { rewrite Ha', Ha. by apply resolve_idem. }
    destruct (decide (l = lo ∧ k = "tokenURL")) as [[-> ->]|N2].
    { rewrite Hk', Hk. by apply resolve_idem. }
    destruct (decide (l = lo ∧ k = "customHeaders")) as [[-> ->]|N3]; [done|].
    assert (Hcase : (k = "User-Agent" ∧ field h' lo "customHeaders" = VRef l)
                    ∨ ¬ (k = "User-Agent" ∧ field h' lo "customHeaders" = VRef l)).
    { destruct (decide (k = "User-Agent")) as [->|]; [|right; tauto].
      destruct (field h' lo "customHeaders") as [| |l0|];
        try (right; intros [_ ?]; discriminate).
      destruct (decide (l0 = l)) as [->|]; [by left|].
      right. intros [_ ?]. congruence. }
    destruct Hcase as [[-> Hh]|N4].
    - assert (Hl0 : l < length h ∨
                    truthy (field h lo "customHeaders") = false).
      { destruct (truthy (field h lo "customHeaders")) eqn:E; [left|by right].
        rewrite Hv in Hh. unfold resolve in Hh. rewrite E in Hh.
        by apply Hwf. }
      rewrite (Hua' l) by (rewrite ?Hv''; tauto).
      rewrite (Hua l Hh Hl0). apply Hres.
      apply resolve_truthy. by apply resolve_truthy.
    - apply Hfr'; [done|]. rewrite Hv''.
      intros [[E1 [E2|[E2|E2]]]|[E1 E2]]; tauto. }
  split; [done|].
  exists (length h), (length h'). split_and!; try done.
  repeat (apply Forall_cons; split); [| | | |by apply Forall_nil].
  - rewrite Hn'. rewrite Hsame by done. by rewrite Hn.
  - rewrite U1'. rewrite Hsame by done. rewrite U1. by rewrite Hopt.
  - rewrite U2'. rewrite Hsame by done. rewrite U2. by rewrite Hopt.
  - rewrite U3'. rewrite Hsame by done. rewrite U3. by rewrite Hopt.
Qed.

(** X13.  Called with no options (or with any value that JavaScript counts
    as false in their place), the constructor makes the options itself: the
    generic strategy receives a new object that holds the two default
    addresses and a new header map whose [User-Agent] is
    ["passport-envato"], and nothing else.  An exception of the generic
    strategy is passed on; otherwise the instance gets its name and the
    three default profile addresses, and no object that existed before is
    changed. *)
Theorem options_omitted options verify s (r : value + value) s' :
  truthy options = false ->
  new_Strategy OAuth2Strategy_call options verify s = (r, s') ->
  let lt := length (heap s) in
  let o : object :=
    <["customHeaders" := VRef (S (S lt))]>
      (<["tokenURL" := VStr "https://api.envato.com/token"]>
         (<["authorizationURL" := VStr "https://api.envato.com/authorization"]>
            ∅)) in
  let hd : object := <["User-Agent" := VStr "passport-envato"]> ∅ in
  ∃ rE sE,
    OAuth2Strategy_call (VRef lt) (VRef (S lt)) verify
                        (State (heap s ++ [∅; o; hd]) (pending s) (log s))
    = (rE, sE) ∧
    match rE with
    | inl e => r = inl e ∧ s' = sE
    | inr _ =>
        r = inr (VRef lt) ∧
        field (heap s') lt "name" = VStr "envato" ∧
        field (heap s') lt "_userProfileURL"
        = VStr "https://api.envato.com/v1/market/private/user/account.json" ∧
        field (heap s') lt "_userProfileUsername"
        = VStr "https://api.envato.com/v1/market/private/user/username.json" ∧
        field (heap s') lt "_userProfileEmail"
        = VStr "https://api.envato.com/v1/market/private/user/email.json" ∧
        ∀ l k, l < lt -> field (heap s') l k = field (heap s) l k
    end.
Proof.
  intros Hf H lt o hd. destruct s as [h p lg]. cbn [heap pending log] in *.
  unfold new_Strategy in H. rewrite bind_new_object in H.
  cbn [heap pending log] in H.
  unfold mbind at 1 in H. unfold M_bind at 1 in H.
  destruct (Strategy _ _ _ _ _) as [rS sf] eqn:HS in H.
  unfold Strategy in HS.
  replace (or_else options (new_object ∅)) with (new_object ∅) in HS
    by (unfold or_else; by rewrite Hf).
  rewrite bind_new_object in HS. cbn [heap pending log] in HS.
  rewrite <- snoc2 in HS.
  rewrite length_app in HS. cbn [length] in HS.
  repeat first
    [ rewrite bind_assoc in HS
    | rewrite bind_ret in HS
    | rewrite bind_or_else_ret in HS; cbn [resolve truthy] in HS
    | write_at HS
    | read_at HS
    | progress cbn [truthy negb or_else] in HS
    | rewrite bind_new_object in HS; cbn [heap pending log] in HS;
      rewrite <- app_assoc in HS; rewrite length_app, ?length_write in HS;
      cbn [length] in HS ].
  replace (length h + 1) with (S (length h)) in HS by lia.
  replace (length h + 2) with (S (S (length h))) in HS by lia.
  set (W := write _ (VRef 2) _ _) in HS.
  assert (EW : W = [∅; o; hd]) by reflexivity.
  rewrite EW in HS. clear W EW.
  set (hP := h ++ [∅; o; hd]) in *.
  unfold mbind at 1 in HS. unfold M_bind at 1 in HS.
  destruct (OAuth2Strategy_frame (length h) (VRef (S (length h))) verify
              (State hP p lg)) as [HlE Hfr].
  destruct (OAuth2Strategy_call _ _ _ _) as [rE sE] eqn:Heng.
  cbn [snd heap] in HlE, Hfr.
  exists rE, sE. split; [done|].
  destruct rE as [e|[]].
  - assert (E1 := f_equal fst HS). assert (E2 := f_equal snd HS).
    cbn [fst snd] in E1, E2. subst rS sf.
    assert (E1 := f_equal fst H). assert (E2 := f_equal snd H).
    cbn [fst snd] in E1, E2. by subst r s'.
  - assert (HlP : length hP = length h + 3) by (unfold hP; len).
    assert (Hopt : ∀ k, field (heap sE) (S (length h)) k = field hP (S (length h)) k).
    { intros k. apply Hfr; lia. }
    assert (Hno : ∀ k, k ≠ "authorizationURL" -> k ≠ "tokenURL" ->
                       k ≠ "customHeaders" ->
                       field hP (S (length h)) k = VUndefined).
    { intros k ? ? ?. unfold hP.
      replace (S (length h)) with (length h + 1) by lia.
      rewrite field_at. unfold field, o. cbn [lookup list_lookup].
      by rewrite !lookup_insert_ne, lookup_empty by done. }
    forward HS. unfold set_prop in HS. cbn [nullish heap pending log] in HS.
    assert (E1 := f_equal fst HS). assert (E2 := f_equal snd HS).
    cbn [fst snd] in E1, E2. subst rS sf. unfold mret, M_ret in H.
    assert (E1 := f_equal fst H). assert (E2 := f_equal snd H).
    cbn [fst snd] in E1, E2. subst r s'. cbn [heap]. fold lt.
    split; [done|].
    split_and!.
    + by fields.
    + fields. rewrite Hopt, Hno by done. done.
    + fields. rewrite Hopt, Hno by done. done.
    + fields. rewrite Hopt, Hno by done. done.
    + intros l k Hl. rewrite !field_write_other by (left; intros [=]; lia).
      rewrite Hfr by lia. unfold hP. by rewrite field_app_l.
Qed.

End Configuration.

(** * The remaining properties on the worked configurations *)

Lemma example_username_ok :
  answer_ok Reader.JSON_parse (Reply VNull username_body) username_json.
Proof. unfold answer_ok. split_and!; by vm_compute. Qed.

(** ** The host's [done] on the worked configuration *)


Lemma throwing_done_records x : done_records (throwing_done x).
Proof. intros d e p s. by exists (inl x). Qed.



(** C8 on the worked configuration. *)
Lemma repeated_fetch_fresh_equal_witness :
  let rs := [Reply VNull account_body; Reply VNull username_body;
             Reply VNull email_body] in
  let s1 := fetchProfile Reader.JSON_parse (VRef 3) (VStr "token") (VRef 2)
              rs example_strategy in
  let s2 := fetchProfile Reader.JSON_parse (VRef 3) (VStr "token") (VRef 2)
              rs s1 in
  let n1 := length (heap example_strategy) in
  let n2 := length (heap s1) in
  let profile :=
    <["email" := member email_json "email"]>
      (<["username" := member username_json "username"]>
         (account_profile account_json account_member account_body)) in
  let requests :=
    [Get (VRef 5)
       (VStr "https://api.envato.com/v1/market/private/user/account.json")
       (VStr "token");
     Get (VRef 5)
       (VStr "https://api.envato.com/v1/market/private/user/username.json")
       (VStr "token");
     Get (VRef 5)
       (VStr "https://api.envato.com/v1/market/private/user/email.json")
       (VStr "token")] in
  log s1 = log example_strategy ++ requests ++ [Done (VRef 2) VNull (VRef n1)] ∧
  log s2 = log s1 ++ requests ++ [Done (VRef 2) VNull (VRef n2)] ∧
  n1 ≠ n2 ∧
  heap example_strategy !! n1 = None ∧ heap s1 !! n1 = Some profile ∧
  heap s1 !! n2 = None ∧
  heap s2 !! n1 = Some profile ∧ heap s2 !! n2 = Some profile ∧
  complete profile ∧
  heap s2 = heap example_strategy ++ [profile; profile].
Proof.
  exact (repeated_fetch_fresh_equal Reader.JSON_parse 3 (VStr "token") (VRef 2)
           (VRef 5) _ _ _ (Reply VNull account_body)
           (Reply VNull username_body) (Reply VNull email_body)
           example_strategy account_json account_member username_json
           email_json example_strategy_ready example_account_ok
           example_username_ok example_email_ok).
Defined.

(** X1 on the worked configuration, with a [done] that throws and a second
    body that is not JSON. *)
Lemma requests_in_order_witness :
  let r1 := Reply VNull account_body in
  let r2 := Reply VNull "not json" in
  let r3 := Reply VNull email_body in
  let s' := fetchProfile_with Reader.JSON_parse (throwing_done (VStr "boom"))
              (VRef 3) (VStr "token") (VRef 2) [r1; r2; r3]
              example_strategy in
  let k := requests_issued Reader.JSON_parse r1 r2 in
  ∃ e p extra,
    log s' =
      (log example_strategy ++
       take k
         [Get (VRef 5)
            (VStr "https://api.envato.com/v1/market/private/user/account.json")
            (VStr "token");
          Get (VRef 5)
            (VStr "https://api.envato.com/v1/market/private/user/username.json")
            (VStr "token");
          Get (VRef 5)
            (VStr "https://api.envato.com/v1/market/private/user/email.json")
            (VStr "token")])
      ++ Done (VRef 2) e p :: extra ∧
    gets extra = [] ∧ pending s' = [] ∧
    (e = VNull <-> k = 3 ∧ answer_good Reader.JSON_parse r3 = true).
Proof.
  exact (requests_in_order Reader.JSON_parse (throwing_done (VStr "boom"))
           3 (VStr "token") (VRef 2) (VRef 5) _ _ _
           (Reply VNull account_body) (Reply VNull "not json")
           (Reply VNull email_body) [] example_strategy
           (throwing_done_records _) example_strategy_ready).
Defined.

(** X2 on the worked configuration, with a [done] that throws and three
    replies that succeed. *)
Lemma error_kinds_witness :
  let r1 := Reply VNull account_body in
  let r2 := Reply VNull username_body in
  let r3 := Reply VNull email_body in
  let host_done := throwing_done (VStr "boom") in
  let s' := fetchProfile_with Reader.JSON_parse host_done
              (VRef 3) (VStr "token") (VRef 2) [r1; r2; r3]
              example_strategy in
  let k := requests_issued Reader.JSON_parse r1 r2 in
  let requests :=
    log example_strategy ++
    take k
      [Get (VRef 5)
         (VStr "https://api.envato.com/v1/market/private/user/account.json")
         (VStr "token");
       Get (VRef 5)
         (VStr "https://api.envato.com/v1/market/private/user/username.json")
         (VStr "token");
       Get (VRef 5)
         (VStr "https://api.envato.com/v1/market/private/user/email.json")
         (VStr "token")] in
  ∃ e p extra,
    log s' = requests ++ Done (VRef 2) e p :: extra ∧
    ((k = 3 ∧ answer_good Reader.JSON_parse r3 = true ∧
      e = VNull ∧ p = VRef (length (heap example_strategy)))
     ∨ ((k = 3 -> answer_good Reader.JSON_parse r3 = false) ∧
        p = VUndefined ∧
        stops_with Reader.JSON_parse k (reply_at k r1 r2 r3) e)) ∧
    (dones extra = []
     ∨ (e = VNull ∧
        ∃ x, (host_done (VRef 2) VNull p (State (heap s') [] requests)).1
             = inl x ∧
             dones extra = [Done (VRef 2) x VUndefined])).
Proof.
  exact (error_kinds Reader.JSON_parse (throwing_done (VStr "boom"))
           3 (VStr "token") (VRef 2) (VRef 5) _ _ _
           (Reply VNull account_body) (Reply VNull username_body)
           (Reply VNull email_body) [] example_strategy
           (throwing_done_records _) example_strategy_ready).
Defined.

(** X7 on the worked configuration, with a [done] that throws: two
    invocations with the example's [done] and one with another, answered
    out of order, with a transport error, a body that is not JSON and an
    answer nobody waits for. *)
Lemma schedule_accounts_witness :
  let host_done := throwing_done (VStr "boom") in
  let acts :=
    [Invoke (VStr "a") (VRef 2); Answer 0 (Reply VNull account_body);
     Invoke (VStr "b") (VRef 1); Invoke (VStr "c") (VRef 2);
     Answer 2 (Reply (VStr "timeout") EmptyString);
     Answer 1 (Reply VNull account_body); Answer 0 (Reply VNull username_body);
     Answer 1 (Reply VNull "not json"); Answer 5 (Reply VNull "{}");
     Answer 0 (Reply VNull email_body)] in
  let s' := schedule Reader.JSON_parse host_done (VRef 3) acts
                     example_strategy in
  ∃ objs evs m,
    heap s' = heap example_strategy ++ objs ∧
    log s' = log example_strategy ++ evs ∧
    m + outstanding is_example_done (pending s')
    = invoked is_example_done acts ∧
    m ≤ completed is_example_done evs ≤ 2 * m ∧
    (done_returns host_done ->
     completed is_example_done evs = m ∧
     Forall (fun e => is_uncaught e = false) evs).
Proof.
  exact (schedule_accounts Reader.JSON_parse (throwing_done (VStr "boom"))
           (throwing_done_records _) is_example_done 3 (VRef 5) _ _ _
           [Invoke (VStr "a") (VRef 2); Answer 0 (Reply VNull account_body);
            Invoke (VStr "b") (VRef 1); Invoke (VStr "c") (VRef 2);
            Answer 2 (Reply (VStr "timeout") EmptyString);
            Answer 1 (Reply VNull account_body);
            Answer 0 (Reply VNull username_body);
            Answer 1 (Reply VNull "not json"); Answer 5 (Reply VNull "{}");
            Answer 0 (Reply VNull email_body)]
           example_strategy example_strategy_ready).
Defined.

(** X3 on the worked configuration. *)
Lemma profile_contents_witness :
  let s' := fetchProfile Reader.JSON_parse (VRef 3) (VStr "token") (VRef 2)
              [Reply VNull account_body; Reply VNull username_body;
               Reply VNull email_body] example_strategy in
  ∃ o, heap s' !! length (heap example_strategy) = Some o ∧
       dom o = list_to_set profile_fields ∧
       o !! "provider" = Some (VStr "envato") ∧
       Forall (fun f => o !! f = Some (member account_member f))
              account_fields ∧
       o !! "username" = Some (member username_json "username") ∧
       o !! "email" = Some (member email_json "email") ∧
       o !! "_raw" = Some (VStr account_body) ∧
       o !! "_json" = Some (VData account_json).
Proof.
  exact (profile_contents Reader.JSON_parse 3 (VStr "token") (VRef 2)
           (VRef 5) _ _ _ (Reply VNull account_body)
           (Reply VNull username_body) (Reply VNull email_body) []
           example_strategy account_json account_member username_json
           email_json example_strategy_ready example_account_ok
           example_username_ok example_email_ok).
Defined.

(** X4 on the worked configuration: the account is the string ["x"]. *)
Lemma non_object_account_witness :
  let text := Reader.dq "{'account':'x'}" in
  let s' := fetchProfile Reader.JSON_parse (VRef 3) (VStr "token") (VRef 2)
              [Reply VNull text] example_strategy in
  let profile := length (heap example_strategy) in
  Reader.JSON_parse text = inr (JObj {[ "account" := JStr "x" ]}) ∧
  log s' = log example_strategy ++
    [Get (VRef 5)
       (VStr "https://api.envato.com/v1/market/private/user/account.json")
       (VStr "token");
     Get (VRef 5)
       (VStr "https://api.envato.com/v1/market/private/user/username.json")
       (VStr "token")] ∧
  pending s' = [OnUsername (VRef 3) (VStr "token") (VRef 2) (VRef profile)] ∧
  field (heap s') profile "provider" = VStr "envato" ∧
  Forall (fun f => field (heap s') profile f = VUndefined) account_fields.
Proof.
  assert (P : Reader.JSON_parse (Reader.dq "{'account':'x'}")
              = inr (JObj {[ "account" := JStr "x" ]}))
    by (vm_compute; reflexivity).
  split; [exact P|].
  refine (non_object_account Reader.JSON_parse 3 (VStr "token") (VRef 2)
            (VRef 5) _ _ _ (Reply VNull (Reader.dq "{'account':'x'}"))
            example_strategy (JObj {[ "account" := JStr "x" ]}) (JStr "x")
            example_strategy_ready eq_refl P _ _ _).
  - vm_compute. reflexivity.
  - discriminate.
  - discriminate.
Defined.

(** X5 on the worked configuration: the username body, then the email body,
    is [null]. *)
Lemma null_body_is_type_error_witness :
  Reader.JSON_parse "null" = inr JNull ∧
  (let s' := fetchProfile Reader.JSON_parse (VRef 3) (VStr "token") (VRef 2)
               [Reply VNull account_body; Reply VNull "null";
                Reply VNull email_body] example_strategy in
   pending s' = [] ∧
   ∃ msg, log s' = log example_strategy ++
     [Get (VRef 5)
        (VStr "https://api.envato.com/v1/market/private/user/account.json")
        (VStr "token");
      Get (VRef 5)
        (VStr "https://api.envato.com/v1/market/private/user/username.json")
        (VStr "token");
      Done (VRef 2) (VError TypeError msg VUndefined) VUndefined]) ∧
  (let s' := fetchProfile Reader.JSON_parse (VRef 3) (VStr "token") (VRef 2)
               [Reply VNull account_body; Reply VNull username_body;
                Reply VNull "null"] example_strategy in
   pending s' = [] ∧
   ∃ msg, log s' = log example_strategy ++
     [Get (VRef 5)
        (VStr "https://api.envato.com/v1/market/private/user/account.json")
        (VStr "token");
      Get (VRef 5)
        (VStr "https://api.envato.com/v1/market/private/user/username.json")
        (VStr "token");
      Get (VRef 5)
        (VStr "https://api.envato.com/v1/market/private/user/email.json")
        (VStr "token");
      Done (VRef 2) (VError TypeError msg VUndefined) VUndefined]).
Proof.
  assert (P : Reader.JSON_parse "null" = inr JNull) by (vm_compute; reflexivity).
  split; [exact P|]. split.
  - exact (proj1
      (null_body_is_type_error Reader.JSON_parse 3 (VStr "token") (VRef 2)
         (VRef 5) _ _ _ (Reply VNull account_body) (Reply VNull "null")
         (Reply VNull email_body) [Reply VNull email_body] example_strategy
         account_json account_member example_strategy_ready
         example_account_ok)
      eq_refl P).
  - exact (proj2
      (null_body_is_type_error Reader.JSON_parse 3 (VStr "token") (VRef 2)
         (VRef 5) _ _ _ (Reply VNull account_body) (Reply VNull username_body)
         (Reply VNull "null") [] example_strategy
         account_json account_member example_strategy_ready
         example_account_ok)
      username_json example_username_ok eq_refl P).
Defined.

(** X6 on an instance that is an empty object. *)
Lemma userProfile_without_client_witness :
  ∃ msg,
    call (userProfile (VRef 0) (VStr "token") VUndefined) bare_start
    = State (heap bare_start) (pending bare_start)
            (log bare_start ++ [Uncaught (VError TypeError msg VUndefined)]).
Proof.
  exact (userProfile_without_client 0 (VStr "token") VUndefined bare_start
           eq_refl).
Defined.

(** X8 on the worked configuration. *)
Lemma interleaved_fetch_witness :
  let sA := call (userProfile (VRef 3) (VStr "a") (VRef 2)) example_strategy in
  let sB := call (userProfile (VRef 3) (VStr "b") (VRef 1)) sA in
  let r1 := Reply VNull account_body in
  let r2 := Reply VNull username_body in
  let r3 := Reply VNull email_body in
  let s' := deliver_all Reader.JSON_parse [r1; r1; r2; r2; r3; r3] sB in
  let profile :=
    <["email" := member email_json "email"]>
      (<["username" := member username_json "username"]>
         (account_profile account_json account_member account_body)) in
  heap s' = heap example_strategy ++ [profile; profile] ∧
  pending s' = [] ∧
  dones (log s') = dones (log example_strategy) ++
    [Done (VRef 2) VNull (VRef (length (heap example_strategy)));
     Done (VRef 1) VNull (VRef (S (length (heap example_strategy))))].
Proof.
  exact (interleaved_fetch Reader.JSON_parse 3 (VStr "a") (VRef 2) (VStr "b")
           (VRef 1) (VRef 5) _ _ _ (Reply VNull account_body)
           (Reply VNull username_body) (Reply VNull email_body)
           example_strategy account_json account_member username_json
           email_json example_strategy_ready example_account_ok
           example_username_ok example_email_ok).
Defined.

Lemma custom_strategy_built :
  new_Strategy Host.OAuth2Strategy_call (VRef 0) (VRef 1) custom_start
  = (inr (VRef 2), custom_strategy).
Proof. by vm_compute. Qed.

(** X9 on the second configuration: the given profile address is kept, the
    empty one and the [null] token address are replaced. *)
Lemma endpoint_options_resolved_witness :
  field (heap custom_strategy) 2 "_userProfileURL"
  = VStr "https://example.net/account.json" ∧
  field (heap custom_strategy) 2 "_userProfileUsername"
  = VStr "https://api.envato.com/v1/market/private/user/username.json" ∧
  field (heap custom_strategy) 0 "tokenURL"
  = VStr "https://api.envato.com/token".
Proof.
  destruct (endpoint_options_resolved Host.OAuth2Strategy_call Host_frame
              0 (VRef 1) custom_start (VRef 2) custom_strategy)
    as (_ & [_ Ht] & [H1 _] & [_ H2] & _).
  - vm_compute. lia.
  - exact custom_strategy_built.
  - split_and!.
    + transitivity (field (heap custom_start) 0 "userProfileURL");
        [apply H1|]; vm_compute; reflexivity.
    + apply H2. vm_compute. reflexivity.
    + apply Ht. vm_compute. reflexivity.
Defined.

(** X10 on the worked configuration. *)
Lemma instance_named_witness :
  ∃ lt, VRef 3 = VRef lt ∧ heap example_start !! lt = None ∧
        is_Some (heap example_strategy !! lt) ∧
        field (heap example_strategy) lt "name" = VStr "envato".
Proof.
  apply (instance_named Host.OAuth2Strategy_call Host_frame 0 (VRef 1)
           example_start (VRef 3) example_strategy).
  - vm_compute. lia.
  - exact example_strategy_built.
Defined.

(** X11 with the stand-in for the generic strategy, which refuses options
    without a [clientID]. *)
Lemma construction_failure_witness :
  let s' := (new_Strategy Host.OAuth2Strategy_call (VRef 0) VUndefined
                          bare_start).2 in
  (∃ sP, Host.OAuth2Strategy_call (VRef 1) (VRef 0) VUndefined sP
         = (inl (type_error "OAuth2Strategy requires a clientID option"), s')) ∧
  field (heap s') 0 "authorizationURL"
  = VStr "https://api.envato.com/authorization" ∧
  field (heap s') 0 "tokenURL" = VStr "https://api.envato.com/token" ∧
  truthy (field (heap s') 0 "customHeaders") = true.
Proof.
  destruct (construction_failure Host.OAuth2Strategy_call Host_frame
              0 VUndefined bare_start
              (type_error "OAuth2Strategy requires a clientID option")
              (new_Strategy Host.OAuth2Strategy_call (VRef 0) VUndefined
                            bare_start).2)
    as (H1 & H2 & H3 & H4).
  - vm_compute. lia.
  - vm_compute. reflexivity.
  - split_and!; [exact H1| | |exact H4].
    + rewrite H2. vm_compute. reflexivity.
    + rewrite H3. vm_compute. reflexivity.
Defined.

Lemma example_rebuilt_built :
  new_Strategy Host.OAuth2Strategy_call (VRef 0) (VRef 1) example_strategy
  = (inr (VRef 6), example_rebuilt).
Proof. by vm_compute. Qed.

(** X12 on the worked configuration, built twice. *)
Lemma second_construction_witness :
  (∀ l k, l < length (heap example_strategy) ->
          field (heap example_rebuilt) l k = field (heap example_strategy) l k) ∧
  Forall (fun k => field (heap example_rebuilt) 6 k
                   = field (heap example_rebuilt) 3 k)
         ["name"; "_userProfileURL"; "_userProfileUsername";
          "_userProfileEmail"].
Proof.
  destruct (second_construction Host.OAuth2Strategy_call Host_frame
              0 (VRef 1) (VRef 1) example_start (VRef 3) example_strategy
              (VRef 6) example_rebuilt)
    as (H1 & lt & lt' & E & E' & _ & H2).
  - vm_compute. lia.
  - intros lh E. vm_compute in E. discriminate E.
  - exact example_strategy_built.
  - exact example_rebuilt_built.
  - split; [exact H1|].
    injection E as <-. injection E' as <-. exact H2.
Defined.

(** X13 with the stand-in for the generic strategy: without options there is
    no [clientID], and its exception is passed on. *)
Lemma options_omitted_witness :
  let run := new_Strategy Host.OAuth2Strategy_call VUndefined (VRef 0)
                          bare_start in
  let o : object :=
    <["customHeaders" := VRef 3]>
      (<["tokenURL" := VStr "https://api.envato.com/token"]>
         (<["authorizationURL" := VStr "https://api.envato.com/authorization"]>
            ∅)) in
  let hd : object := <["User-Agent" := VStr "passport-envato"]> ∅ in
  run.1 = inl (type_error "OAuth2Strategy requires a clientID option") ∧
  run.2 = State [∅; ∅; o; hd] [] [].
Proof.
  destruct (options_omitted Host.OAuth2Strategy_call Host_frame VUndefined
              (VRef 0) bare_start
              (new_Strategy Host.OAuth2Strategy_call VUndefined (VRef 0)
                            bare_start).1
              (new_Strategy Host.OAuth2Strategy_call VUndefined (VRef 0)
                            bare_start).2 eq_refl
              (surjective_pairing _))
    as (rE & sE & Heng & H).
  vm_compute in Heng.
  injection Heng as <- <-. exact H.
Defined.

(** X14 on a store with one object, with the example's email body. *)
Lemma throwing_done_called_again_witness :
  call (on_email_with Reader.JSON_parse (throwing_done (VStr "boom")) (VRef 2)
          (VRef 0) (Reply VNull email_body)) bare_start
  = State [{[ "email" := VStr "e@x.com" ]}] []
          [Done (VRef 2) VNull (VRef 0); Done (VRef 2) (VStr "boom") VUndefined;
           Uncaught (VStr "boom")].
Proof.
  rewrite (proj1 (throwing_done_called_again Reader.JSON_parse (VStr "boom")
                    (VRef 2) 0 (Reply VNull email_body) bare_start)
                 email_json example_email_ok).
  vm_compute. reflexivity.
Defined.
